(** * easyqueue: the asynchronous queue client ([easyqueue/async_queue.py])

    A shallow embedding of the connection guard [_ensure_connected], of the
    consumption handler [_ConsumptionHandler] and of the [AsyncJsonQueue]
    client, with the properties of its specification.

    Conventions of the embedding.
    - A coroutine is a function from the state of the program to a result
      and a new state; an [await] on a collaborator (the AMQP connection,
      the channel, [asyncio.sleep], the delegate) is a call to a function
      of the environment, which may change the connection, the liveness
      flag and the outside world while the caller is suspended.
    - Every call that leaves the client is recorded in a trace of events,
      which the environment cannot read or write.
    - A [raise] is the [Raise] result; [except Exception] catches the
      exceptions whose class derives from [Exception] and lets the others
      through, as Python does.
    - The retry loop of the guard is unbounded in the source; it carries a
      fuel that bounds the number of connection attempts, and [None] is the
      answer of a loop that has not exited within that many attempts. *)

From Stdlib Require Import ZArith NArith List String Ascii Bool Lia.
From Stdlib Require Import DecimalZ DecimalPos DecimalFacts.
Import ListNotations.

Local Open Scope list_scope.
Local Open Scope string_scope.
Set Warnings "-register-all".

(** ** Exceptions and results *)

Module Py.

(** The exception classes the client and its collaborators raise.  The last
    four derive from [BaseException] only. *)
Inductive exc_class : Type :=
| ValueError
| TypeError
| AttributeError
| KeyError
| ConnectionError
| OSError
| RuntimeError
| UnicodeDecodeError
| UnicodeEncodeError
| JSONDecodeError
| KeyboardInterrupt
| SystemExit
| GeneratorExit
| CancelledError.

(** The stack frames of [e.__traceback__], one line per frame. *)
Definition traceback := list string.

Record exn : Type := mk_exn {
  exn_class : exc_class;
  exn_message : string;
  __traceback__ : traceback
}.

(** [isinstance(e, Exception)]. *)
Definition isinstance_Exception (e : exn) : bool :=
  match exn_class e with
  | KeyboardInterrupt | SystemExit | GeneratorExit | CancelledError => false
  | _ => true
  end.

(** [traceback.format_tb]: the frames as a list of strings. *)
Definition format_tb (tb : traceback) : list string := tb.

(** A freshly raised exception: no frame has been unwound yet. *)
Definition new_exn (c : exc_class) (msg : string) : exn := mk_exn c msg [].

Inductive result (A : Type) : Type :=
| Ok (a : A)
| Raise (e : exn).
Arguments Ok {A} a.
Arguments Raise {A} e.

Definition bind {A B : Type} (r : result A) (k : A -> result B) : result B :=
  match r with
  | Ok a => k a
  | Raise e => Raise e
  end.

(** ** Python values

    The payloads handed to [put] and [serialize] are arbitrary Python
    objects.  The model has the built-in types that matter to the JSON
    codec; a [str] is a [string] whose characters stand for the code points
    U+0000 to U+00FF, and floats are outside the model. *)

Definition bytes := list Byte.byte.

Inductive pyval : Type :=
| PyNone
| PyBool (b : bool)
| PyInt (z : Z)
| PyStr (s : string)
| PyBytes (b : bytes)
| PyList (l : list pyval)
| PyTuple (l : list pyval)
| PyDict (items : list (pyval * pyval)).

(** Induction on a value, with the property of the elements of a list or
    tuple and of the keys and values of a dictionary at hand. *)
Section Induction.

Variable P : pyval -> Prop.
Hypothesis on_none : P PyNone.
Hypothesis on_bool : forall b, P (PyBool b).
Hypothesis on_int : forall z, P (PyInt z).
Hypothesis on_str : forall s, P (PyStr s).
Hypothesis on_bytes : forall b, P (PyBytes b).
Hypothesis on_list : forall l, Forall P l -> P (PyList l).
Hypothesis on_tuple : forall l, Forall P l -> P (PyTuple l).
Hypothesis on_dict :
  forall items, Forall (fun kv => P (fst kv) /\ P (snd kv)) items -> P (PyDict items).

Fixpoint pyval_induction (v : pyval) : P v :=
  match v with
  | PyNone => on_none
  | PyBool b => on_bool b
  | PyInt z => on_int z
  | PyStr s => on_str s
  | PyBytes b => on_bytes b
  | PyList l =>
      on_list l
        ((fix elements (l : list pyval) : Forall P l :=
            match l with
            | [] => Forall_nil P
            | x :: l' => Forall_cons x (pyval_induction x) (elements l')
            end) l)
  | PyTuple l =>
      on_tuple l
        ((fix elements (l : list pyval) : Forall P l :=
            match l with
            | [] => Forall_nil P
            | x :: l' => Forall_cons x (pyval_induction x) (elements l')
            end) l)
  | PyDict items =>
      on_dict items
        ((fix entries (d : list (pyval * pyval))
            : Forall (fun kv => P (fst kv) /\ P (snd kv)) d :=
            match d with
            | [] => Forall_nil _
            | kv :: d' =>
                Forall_cons kv
                  (conj (pyval_induction (fst kv)) (pyval_induction (snd kv)))
                  (entries d')
            end) items)
  end.

End Induction.

(** Truth value testing, as in [if data and serialized_data]. *)
Definition truthy (v : pyval) : bool :=
  match v with
  | PyNone => false
  | PyBool b => b
  | PyInt z => negb (z =? 0)%Z
  | PyStr s => negb (s =? "")%string
  | PyBytes b => match b with [] => false | _ => true end
  | PyList l | PyTuple l => match l with [] => false | _ => true end
  | PyDict d => match d with [] => false | _ => true end
  end.

End Py.
Import Py.

(** ** Text encoding: [str.encode()] and [bytes.decode()] (UTF-8) *)

Module Utf8.

Definition byte_of_N (n : N) : Byte.byte := byte_of_ascii (ascii_of_N n).
Definition N_of_byte (b : Byte.byte) : N := N_of_ascii (ascii_of_byte b).

(** One code point below U+0100 takes one byte, or two from U+0080 on. *)
Definition encode_char (c : ascii) : bytes :=
  let n := N_of_ascii c in
  if (n <? 128)%N then [byte_of_N n]
  else [byte_of_N (192 + n / 64); byte_of_N (128 + n mod 64)].

Fixpoint encode (s : string) : bytes :=
  match s with
  | EmptyString => []
  | String c s' => (encode_char c ++ encode s')%list
  end.

(** Decoding reads one-byte sequences and the two-byte sequences of the code
    points U+0080 to U+00FF.  Any other byte is reported as undecodable: it
    is either invalid UTF-8 or a code point the string model does not have. *)
Fixpoint decode (b : bytes) : option string :=
  match b with
  | [] => Some EmptyString
  | b0 :: rest =>
      let n0 := N_of_byte b0 in
      if (n0 <? 128)%N then option_map (String (ascii_of_byte b0)) (decode rest)
      else if ((194 <=? n0) && (n0 <=? 195))%N then
        match rest with
        | b1 :: rest' =>
            let n1 := N_of_byte b1 in
            if ((128 <=? n1) && (n1 <=? 191))%N then
              option_map (String (ascii_of_N ((n0 - 192) * 64 + (n1 - 128))))
                (decode rest')
            else None
        | [] => None
        end
      else None
  end.

End Utf8.

(** ** The [json] module of the standard library

    [json.dumps] with its default separators and [json.loads], over the
    values of the model. *)

Module Json.

(** *** Encoder *)

Definition hex_char (n : N) : ascii :=
  match n with
  | 0 => "0" | 1 => "1" | 2 => "2" | 3 => "3" | 4 => "4" | 5 => "5" | 6 => "6"
  | 7 => "7" | 8 => "8" | 9 => "9" | 10 => "a" | 11 => "b" | 12 => "c"
  | 13 => "d" | 14 => "e" | _ => "f"
  end%N%char.

(** The quotation mark (character 34). *)
Definition quotation_mark : string := String "034" "".

(** A reverse solidus (character 92) and the character that names the
    escape. *)
Definition escaped (c : ascii) : string := String "092" (String c "").

(** The escape of a code point as four hexadecimal digits. *)
Definition u_escape (n : N) : string :=
  escaped "u"
  ++ String (hex_char ((n / 4096) mod 16)) (String (hex_char ((n / 256) mod 16))
      (String (hex_char ((n / 16) mod 16)) (String (hex_char (n mod 16)) ""))).

(** The replacement of one character: [ESCAPE_DCT] first, then the
    [\uXXXX] form for the control characters and, under [ensure_ascii], for
    everything outside the printable ASCII range. *)
Definition escape_char (ensure_ascii : bool) (c : ascii) : string :=
  match c with
  | "034"%char => escaped "034"
  | "092"%char => escaped "092"
  | "008"%char => escaped "b"
  | "012"%char => escaped "f"
  | "010"%char => escaped "n"
  | "013"%char => escaped "r"
  | "009"%char => escaped "t"
  | _ =>
      let n := N_of_ascii c in
      if (n <? 32)%N then u_escape n
      else if ensure_ascii && (126 <? n)%N then u_escape n
      else String c ""
  end.

Fixpoint escape (ensure_ascii : bool) (s : string) : string :=
  match s with
  | EmptyString => ""
  | String c s' => escape_char ensure_ascii c ++ escape ensure_ascii s'
  end.

Definition encode_basestring (ensure_ascii : bool) (s : string) : string :=
  quotation_mark ++ escape ensure_ascii s ++ quotation_mark.

Fixpoint string_of_uint (d : Decimal.uint) : string :=
  match d with
  | Decimal.Nil => ""
  | Decimal.D0 d => String "0" (string_of_uint d)
  | Decimal.D1 d => String "1" (string_of_uint d)
  | Decimal.D2 d => String "2" (string_of_uint d)
  | Decimal.D3 d => String "3" (string_of_uint d)
  | Decimal.D4 d => String "4" (string_of_uint d)
  | Decimal.D5 d => String "5" (string_of_uint d)
  | Decimal.D6 d => String "6" (string_of_uint d)
  | Decimal.D7 d => String "7" (string_of_uint d)
  | Decimal.D8 d => String "8" (string_of_uint d)
  | Decimal.D9 d => String "9" (string_of_uint d)
  end.

(** [int.__repr__] *)
Definition repr_int (z : Z) : string :=
  match Z.to_int z with
  | Decimal.Pos d => string_of_uint d
  | Decimal.Neg d => String "-" (string_of_uint d)
  end.

(** The text of a dictionary key: [str] keys as they are, [bool], [None]
    and [int] keys converted, any other key is a [TypeError]. *)
Definition key_text (k : pyval) : option string :=
  match k with
  | PyStr s => Some s
  | PyBool true => Some "true"
  | PyBool false => Some "false"
  | PyNone => Some "null"
  | PyInt z => Some (repr_int z)
  | _ => None
  end.

(** [', '.join] of the chunks. *)
Fixpoint join (chunks : list string) : string :=
  match chunks with
  | [] => ""
  | [c] => c
  | c :: rest => c ++ ", " ++ join rest
  end.

Fixpoint sequence {A : Type} (l : list (option A)) : option (list A) :=
  match l with
  | [] => Some []
  | None :: _ => None
  | Some a :: rest => option_map (cons a) (sequence rest)
  end.

(** The text of a value; [None] where the encoder raises [TypeError]. *)
Fixpoint encode (ensure_ascii : bool) (v : pyval) : option string :=
  match v with
  | PyNone => Some "null"
  | PyBool true => Some "true"
  | PyBool false => Some "false"
  | PyInt z => Some (repr_int z)
  | PyStr s => Some (encode_basestring ensure_ascii s)
  | PyBytes _ => None
  | PyList l | PyTuple l =>
      option_map (fun chunks => "[" ++ join chunks ++ "]")
        (sequence (map (encode ensure_ascii) l))
  | PyDict items =>
      option_map (fun chunks => "{" ++ join chunks ++ "}")
        (sequence (map (fun kv =>
           match key_text (fst kv), encode ensure_ascii (snd kv) with
           | Some k, Some t => Some (encode_basestring ensure_ascii k ++ ": " ++ t)
           | _, _ => None
           end) items))
  end.

Definition dumps (obj : pyval) (ensure_ascii : bool) : result string :=
  match encode ensure_ascii obj with
  | Some s => Ok s
  | None => Raise (new_exn TypeError "Object is not JSON serializable")
  end.

(** *** Decoder *)

Definition is_ws (c : ascii) : bool :=
  match c with
  | " "%char | "009"%char | "010"%char | "013"%char => true
  | _ => false
  end.

Fixpoint skip_ws (s : string) : string :=
  match s with
  | String c s' => if is_ws c then skip_ws s' else s
  | EmptyString => s
  end.

Definition hex_val (c : ascii) : option N :=
  let n := N_of_ascii c in
  if ((48 <=? n) && (n <=? 57))%N then Some (n - 48)%N
  else if ((97 <=? n) && (n <=? 102))%N then Some (n - 87)%N
  else if ((65 <=? n) && (n <=? 70))%N then Some (n - 55)%N
  else None.

(** The four hexadecimal digits of a [\uXXXX] escape.  Code points from
    U+0100 on are outside the string model and are refused. *)
Definition decode_uXXXX (h1 h2 h3 h4 : ascii) : option ascii :=
  match hex_val h1, hex_val h2, hex_val h3, hex_val h4 with
  | Some a, Some b, Some c, Some d =>
      let n := (a * 4096 + b * 256 + c * 16 + d)%N in
      if (n <? 256)%N then Some (ascii_of_N n) else None
  | _, _, _, _ => None
  end.

(** [py_scanstring] in strict mode, after the opening quote: the content
    of the string and the text after the closing quote. *)
Fixpoint scanstring (s : string) : option (string * string) :=
  let cons_char c r :=
    match r with
    | Some (content, rest) => Some (String c content, rest)
    | None => None
    end in
  match s with
  | EmptyString => None
  | String "034"%char rest => Some ("", rest)
  | String "092"%char EmptyString => None
  | String "092"%char (String e rest) =>
      match e with
      | "034"%char => cons_char "034"%char (scanstring rest)
      | "092"%char => cons_char "092"%char (scanstring rest)
      | "/"%char => cons_char "/"%char (scanstring rest)
      | "b"%char => cons_char "008"%char (scanstring rest)
      | "f"%char => cons_char "012"%char (scanstring rest)
      | "n"%char => cons_char "010"%char (scanstring rest)
      | "r"%char => cons_char "013"%char (scanstring rest)
      | "t"%char => cons_char "009"%char (scanstring rest)
      | "u"%char =>
          match rest with
          | String h1 (String h2 (String h3 (String h4 rest'))) =>
              match decode_uXXXX h1 h2 h3 h4 with
              | Some c => cons_char c (scanstring rest')
              | None => None
              end
          | _ => None
          end
      | _ => None
      end
  | String c rest =>
      if (N_of_ascii c <? 32)%N then None else cons_char c (scanstring rest)
  end.

Definition digit_of (c : ascii) : option (Decimal.uint -> Decimal.uint) :=
  match c with
  | "0" => Some Decimal.D0 | "1" => Some Decimal.D1 | "2" => Some Decimal.D2
  | "3" => Some Decimal.D3 | "4" => Some Decimal.D4 | "5" => Some Decimal.D5
  | "6" => Some Decimal.D6 | "7" => Some Decimal.D7 | "8" => Some Decimal.D8
  | "9" => Some Decimal.D9
  | _ => None
  end%char.

(** The longest run of digits at the head of the text. *)
Fixpoint read_uint (s : string) : Decimal.uint * string :=
  match s with
  | EmptyString => (Decimal.Nil, s)
  | String c s' =>
      match digit_of c with
      | Some d => let '(u, rest) := read_uint s' in (d u, rest)
      | None => (Decimal.Nil, s)
      end
  end.

(** The integer part of [NUMBER_RE]: [0], or a digit from 1 to 9 and the
    digits after it. *)
Definition read_integer (s : string) : option (Decimal.uint * string) :=
  match s with
  | String "0"%char rest => Some (Decimal.D0 Decimal.Nil, rest)
  | _ =>
      match read_uint s with
      | (Decimal.Nil, _) => None
      | (u, rest) => Some (u, rest)
      end
  end.

(** A number.  A fraction or an exponent is left in the text, where it ends
    the parse with an error: floats are outside the model. *)
Definition scan_number (s : string) : option (pyval * string) :=
  match s with
  | String "-"%char s' =>
      match read_integer s' with
      | Some (u, rest) => Some (PyInt (Z.of_int (Decimal.Neg u)), rest)
      | None => None
      end
  | _ =>
      match read_integer s with
      | Some (u, rest) => Some (PyInt (Z.of_int (Decimal.Pos u)), rest)
      | None => None
      end
  end.

(** [d[k] = v] on a dictionary whose keys are strings. *)
Fixpoint dict_set (k : string) (v : pyval) (d : list (pyval * pyval))
  : list (pyval * pyval) :=
  match d with
  | [] => [(PyStr k, v)]
  | (PyStr k', v') :: d' =>
      if (k =? k')%string then (PyStr k', v) :: d'
      else (PyStr k', v') :: dict_set k v d'
  | kv :: d' => kv :: dict_set k v d'
  end.

(** [scan_once], [JSONArray] and [JSONObject].  [scan_array] and
    [scan_object] are entered at the first character of an element, of a
    key. *)
Fixpoint scan_once (fuel : nat) (s : string) {struct fuel}
  : option (pyval * string) :=
  match fuel with
  | O => None
  | S fuel' =>
      match s with
      | String "034"%char rest =>
          match scanstring rest with
          | Some (content, rest') => Some (PyStr content, rest')
          | None => None
          end
      | String "{"%char rest =>
          match skip_ws rest with
          | String "}"%char rest' => Some (PyDict [], rest')
          | rest' => scan_object fuel' [] rest'
          end
      | String "["%char rest =>
          match skip_ws rest with
          | String "]"%char rest' => Some (PyList [], rest')
          | rest' => scan_array fuel' [] rest'
          end
      | String "n"%char (String "u"%char (String "l"%char (String "l"%char rest))) =>
          Some (PyNone, rest)
      | String "t"%char (String "r"%char (String "u"%char (String "e"%char rest))) =>
          Some (PyBool true, rest)
      | String "f"%char (String "a"%char (String "l"%char (String "s"%char
          (String "e"%char rest)))) =>
          Some (PyBool false, rest)
      | _ => scan_number s
      end
  end
with scan_array (fuel : nat) (acc : list pyval) (s : string) {struct fuel}
  : option (pyval * string) :=
  match fuel with
  | O => None
  | S fuel' =>
      match scan_once fuel' s with
      | Some (v, rest) =>
          match skip_ws rest with
          | String "]"%char rest' => Some (PyList (acc ++ [v])%list, rest')
          | String ","%char rest' => scan_array fuel' (acc ++ [v])%list (skip_ws rest')
          | _ => None
          end
      | None => None
      end
  end
with scan_object (fuel : nat) (acc : list (pyval * pyval)) (s : string)
  {struct fuel} : option (pyval * string) :=
  match fuel with
  | O => None
  | S fuel' =>
      match s with
      | String "034"%char rest =>
          match scanstring rest with
          | Some (key, rest1) =>
              match skip_ws rest1 with
              | String ":"%char rest2 =>
                  match scan_once fuel' (skip_ws rest2) with
                  | Some (v, rest3) =>
                      match skip_ws rest3 with
                      | String "}"%char rest4 =>
                          Some (PyDict (dict_set key v acc), rest4)
                      | String ","%char rest4 =>
                          scan_object fuel' (dict_set key v acc) (skip_ws rest4)
                      | _ => None
                      end
                  | None => None
                  end
              | _ => None
              end
          | None => None
          end
      | _ => None
      end
  end.

(** [JSONDecoder.decode]: one value between optional white space, and
    nothing after it. *)
Definition decode (s : string) : option pyval :=
  match scan_once (S (String.length s)) (skip_ws s) with
  | Some (v, rest) =>
      match skip_ws rest with
      | EmptyString => Some v
      | _ => None
      end
  | None => None
  end.

Definition loads (s : string) : result pyval :=
  match decode s with
  | Some v => Ok v
  | None => Raise (new_exn JSONDecodeError "Expecting value")
  end.

(** The payloads JSON carries without loss: no tuple, no [bytes], and
    dictionaries keyed by distinct strings. *)
Fixpoint distinct (keys : list string) : bool :=
  match keys with
  | [] => true
  | k :: rest => negb (existsb (String.eqb k) rest) && distinct rest
  end.

Definition key_string (kv : pyval * pyval) : option string :=
  match fst kv with
  | PyStr s => Some s
  | _ => None
  end.

Fixpoint json_native (v : pyval) : bool :=
  match v with
  | PyNone | PyBool _ | PyInt _ | PyStr _ => true
  | PyBytes _ | PyTuple _ => false
  | PyList l => forallb json_native l
  | PyDict items =>
      forallb (fun kv => json_native (snd kv)) items
      && match sequence (map key_string items) with
         | Some keys => distinct keys
         | None => false
         end
  end.

End Json.

(** *** Reading back what the encoder writes *)

(** The text that follows a number does not start with a digit. *)
Definition ends_number (rest : string) : Prop :=
  match rest with
  | EmptyString => True
  | String c _ => Json.digit_of c = None
  end.

(** The first character of the text of a value: no white space, and not
    the bracket or the brace that closes an empty array or object. *)
Definition value_head (c : ascii) : bool :=
  negb (Json.is_ws c) && negb (c =? "]")%char && negb (c =? "}")%char.

Definition starts_value (text : string) : Prop :=
  match text with
  | EmptyString => False
  | String c _ => value_head c = true
  end.

(** The text of one item of a dictionary. *)
Definition item_text (ensure_ascii : bool) (kv : pyval * pyval) : option string :=
  match Json.key_text (fst kv), Json.encode ensure_ascii (snd kv) with
  | Some k, Some t => Some (Json.encode_basestring ensure_ascii k ++ ": " ++ t)
  | _, _ => None
  end.

(** The scanner reads the text of [v] back as [v], with fuel for the length
    of that text, whatever follows it. *)
Definition round_trips (ensure_ascii : bool) (v : pyval) : Prop :=
  forall text,
    Json.encode ensure_ascii v = Some text ->
    forall fuel rest,
      (String.length text <= fuel)%nat ->
      ends_number rest ->
      Json.scan_once fuel (text ++ rest) = Some (v, rest).

(** A key a dictionary under construction does not hold yet. *)
Definition fresh_key (k : string) (acc : list (pyval * pyval)) : Prop :=
  Forall (fun kv => exists k', fst kv = PyStr k' /\ k' <> k) acc.

(** ** The collaborators of the client

    [AMQPConnection], [AMQPMessage] and [BaseQueue] live in other modules of
    the package and the channel belongs to aioamqp; the client only sees the
    attributes and the calls below. *)

(** The identity of a channel object. *)
Definition Channel := nat.

(** Modelled from the spec: the connection state is a boolean connected
    status and a current channel reference that may change across
    reconnects ([easyqueue/connection.py] is the missing part). *)
Record AMQPConnection : Type := {
  is_connected : bool;
  channel : option Channel
}.

(** The delivery envelope of aioamqp. *)
Record Envelope : Type := {
  envelope_consumer_tag : string;
  envelope_delivery_tag : Z;
  envelope_exchange_name : string;
  envelope_routing_key : string;
  envelope_is_redeliver : bool
}.

Definition Properties := list (string * string).

(** Modelled from the spec: the message envelope keeps the keyword arguments
    of its constructor ([easyqueue/message.py] is the missing part); it
    deserializes lazily, so building one runs no codec.  The [connection]
    argument is the connection of the queue itself and is not copied. *)
Record AMQPMessage : Type := {
  msg_channel : Channel;
  msg_envelope : Envelope;
  msg_properties : Properties;
  msg_delivery_tag : Z;
  msg_deserialization_method : pyval -> result pyval;
  msg_queue_name : string;
  msg_serialized_data : bytes
}.

(** Keyword arguments, by name. *)
Definition kwargs := list (string * AMQPMessage).

Definition Logger := string.

(** The dictionary handed to [logger.error]. *)
Record reconnect_failure : Type := {
  report_event : string;
  retry_count : Z;
  exc_traceback : list string
}.

(** The calls that leave the client, in the order they are made. *)
Inductive event : Type :=
| EvConnect (outcome : result unit)
| EvSleep (seconds : Z)
| EvLoggerError (l : Logger) (report : reconnect_failure)
| EvPublish (ch : Channel) (payload : bytes) (exchange_name routing_key : string)
| EvBasicQos (ch : Channel) (prefetch_count prefetch_size : Z)
    (connection_global : bool)
| EvBasicConsume (ch : Channel) (callback : nat) (consumer_tag queue_name : string)
| EvBasicCancel (ch : Channel) (consumer_tag : string)
| EvBasicClientAck (ch : Channel) (delivery_tag : Z)
| EvBasicReject (ch : Channel) (delivery_tag : Z) (requeue : bool)
| EvOnBeforeStartConsumption (queue_name : string)
| EvOnConsumptionStart (consumer_tag : string)
| EvOnQueueMessage (msg : AMQPMessage)
| EvOnMessageHandleError (handler_error : exn) (kw : kwargs).

(** ** The client *)

Section Client.

(** The world outside the process: the broker, the network, the other
    tasks of the event loop. *)
Context {W : Type}.

(** What an awaited collaborator can reach of the client while the caller
    is suspended: the liveness flag and the connection. *)
Record exposed : Type := {
  x_is_running : bool;
  x_connection : AMQPConnection
}.

Definition await (A : Type) : Type := exposed -> W -> result A * exposed * W.

(** *** [AsyncQueueConsumerDelegate] *)
Record AsyncQueueConsumerDelegate : Type := {
  on_before_start_consumption : string -> await pyval;
  on_consumption_start : string -> await pyval;
  on_queue_message : AMQPMessage -> await pyval;
  on_message_handle_error : exn -> kwargs -> await pyval;
  on_connection_error : exn -> await pyval
}.

(** The hooks of the base class that are not abstract do nothing. *)
Definition pass : await pyval := fun x w => (Ok PyNone, x, w).

(** Modelled from the spec: [BaseQueue] keeps the connection parameters
    ([easyqueue/queue.py] is the missing part). *)
Record BaseQueue : Type := {
  host : string;
  username : string;
  password : string;
  virtual_host : string;
  heartbeat : Z
}.

Record AsyncJsonQueue : Type := {
  base : BaseQueue;
  delegate : option AsyncQueueConsumerDelegate;
  prefetch_count : Z;
  max_message_length : Z;
  connection : AMQPConnection;
  seconds_between_conn_retry : Z;
  is_running : bool;
  logger : option Logger
}.

Record _ConsumptionHandler : Type := {
  handler_delegate : AsyncQueueConsumerDelegate;
  handler_queue_name : string;
  handler_consumer_tag : option string
}.

(** The state of the program: the client object, the handlers it has
    created, the world, and the calls made so far. *)
Record state : Type := {
  self : AsyncJsonQueue;
  handlers : list _ConsumptionHandler;
  world : W;
  trace : list event
}.

Definition coroutine (A : Type) : Type := state -> result A * state.

Definition ret {A : Type} (a : A) : coroutine A := fun s => (Ok a, s).

Definition raise {A : Type} (e : exn) : coroutine A := fun s => (Raise e, s).

Definition bindc {A B : Type} (m : coroutine A) (k : A -> coroutine B)
  : coroutine B :=
  fun s =>
    match m s with
    | (Ok a, s') => k a s'
    | (Raise e, s') => (Raise e, s')
    end.

Definition gets {A : Type} (f : state -> A) : coroutine A :=
  fun s => (Ok (f s), s).

(** [try: body / except Exception as e: handler(e)] *)
Definition try_except_Exception {A : Type} (body : coroutine A)
  (handler : exn -> coroutine A) : coroutine A :=
  fun s =>
    match body s with
    | (Ok a, s') => (Ok a, s')
    | (Raise e, s') =>
        if isinstance_Exception e then handler e s' else (Raise e, s')
    end.

Definition expose (q : AsyncJsonQueue) : exposed :=
  {| x_is_running := is_running q; x_connection := connection q |}.

Definition absorb (x : exposed) (q : AsyncJsonQueue) : AsyncJsonQueue :=
  {| base := base q;
     delegate := delegate q;
     prefetch_count := prefetch_count q;
     max_message_length := max_message_length q;
     connection := x_connection x;
     seconds_between_conn_retry := seconds_between_conn_retry q;
     is_running := x_is_running x;
     logger := logger q |}.

Definition record_event (ev : event) (s : state) : state :=
  {| self := self s; handlers := handlers s; world := world s;
     trace := (trace s ++ [ev])%list |}.

(** An awaited call to a collaborator: it runs on the exposed part of the
    client and on the world, and the call is recorded with its outcome. *)
Definition perform {A : Type} (ev : result A -> event) (op : await A)
  : coroutine A :=
  fun s =>
    let '(r, x, w) := op (expose (self s)) (world s) in
    (r, {| self := absorb x (self s); handlers := handlers s; world := w;
           trace := (trace s ++ [ev r])%list |}).

(** The awaited collaborators: the connection, the event loop's timer and
    the channel primitives of aioamqp. *)
Record Collaborators : Type := {
  _connect : await unit;
  asyncio_sleep : Z -> await unit;
  publish : Channel -> bytes -> string -> string -> await pyval;
  basic_qos : Channel -> Z -> Z -> bool -> await pyval;
  basic_consume : Channel -> nat -> string -> string -> await (list (string * string));
  basic_cancel : Channel -> string -> await pyval;
  basic_client_ack : Channel -> Z -> await pyval;
  basic_reject : Channel -> Z -> bool -> await pyval
}.

Variable io : Collaborators.

(** *** The connection guard [_ensure_connected] *)

Definition connect_attempt : coroutine unit := perform EvConnect (_connect io).

(** [await asyncio.sleep(seconds)]: the call is recorded; like any awaited
    call it may raise, as it does when the task is cancelled while it
    waits. *)
Definition sleep (seconds : Z) : coroutine unit :=
  perform (fun _ => EvSleep seconds) (asyncio_sleep io seconds).

Definition failure_report (retries : Z) (e : exn) : reconnect_failure :=
  {| report_event := "reconnect-failure";
     retry_count := retries;
     exc_traceback := format_tb (__traceback__ e) |}.

(** [if self.logger: self.logger.error({...})] *)
Definition log_failure (retries : Z) (e : exn) (s : state) : state :=
  match logger (self s) with
  | Some l => record_event (EvLoggerError l (failure_report retries e)) s
  | None => s
  end.

(** The [except Exception as e] branch of one iteration: sleep, count,
    report.  It gives the new value of [retries].  The sleep comes first:
    an exception it raises leaves the handler at once, with the failure
    neither counted nor reported. *)
Definition after_failure (retries : Z) (e : exn) : coroutine Z :=
  fun s =>
    match sleep (seconds_between_conn_retry (self s)) s with
    | (Ok _, s2) =>
        let retries := (retries + 1)%Z in
        (Ok retries, log_failure retries e s2)
    | (Raise e', s2) => (Raise e', s2)
    end.

(** [while self.is_running and not self.connection.is_connected] *)
Definition must_connect (s : state) : bool :=
  is_running (self s) && negb (is_connected (connection (self s))).

(** The [while] loop of [wrapper].  The answer is how the loop was left
    ([Ok] by its condition or by [break], [Raise] by an exception that
    [except Exception] does not catch or that is raised inside the
    handler), the value of [retries] and the state at that point; [None]
    when [fuel] attempts were not enough. *)
Fixpoint wrapper_loop (fuel : nat) (retries : Z) (s : state)
  : option (result unit * Z * state) :=
  if must_connect s then
    match fuel with
    | O => None
    | S fuel' =>
        match connect_attempt s with
        | (Ok _, s1) => Some (Ok tt, retries, s1)
        | (Raise e, s1) =>
            if isinstance_Exception e then
              match after_failure retries e s1 with
              | (Ok retries', s3) => wrapper_loop fuel' retries' s3
              | (Raise e', s3) => Some (Raise e', retries, s3)
              end
            else Some (Raise e, retries, s1)
        end
    end
  else Some (Ok tt, retries, s).

(** [wrapper]: the loop from [retries = 0], then
    [return await coro] on the arguments of the call. *)
Definition _ensure_connected {A R : Type} (coro : A -> coroutine R)
  (fuel : nat) (args : A) (s : state) : option (result R * state) :=
  match wrapper_loop fuel 0 s with
  | None => None
  | Some (Raise e, _, s') => Some (Raise e, s')
  | Some (Ok _, _, s') => Some (coro args s')
  end.

(** *** [_ConsumptionHandler] *)

(** The call of [self.delegate.on_queue_message] with the keyword arguments:
    the method takes [msg] and nothing else. *)
Definition call_on_queue_message (d : AsyncQueueConsumerDelegate) (kw : kwargs)
  : coroutine pyval :=
  match kw with
  | [(name, msg)] =>
      if (name =? "msg")%string
      then perform (fun _ => EvOnQueueMessage msg) (on_queue_message d msg)
      else raise (new_exn TypeError "got an unexpected keyword argument")
  | _ => raise (new_exn TypeError "missing or unexpected keyword arguments")
  end.

(** The call of [self.delegate.on_message_handle_error] with
    [handler_error=e] and the keyword arguments: a [handler_error] among them
    would be given twice. *)
Definition call_on_message_handle_error (d : AsyncQueueConsumerDelegate)
  (e : exn) (kw : kwargs) : coroutine pyval :=
  if existsb (fun item => (fst item =? "handler_error")%string) kw
  then raise (new_exn TypeError "got multiple values for keyword argument")
  else perform (fun _ => EvOnMessageHandleError e kw)
         (on_message_handle_error d e kw).

Definition _handle_callback (h : _ConsumptionHandler)
  (callback : kwargs -> coroutine pyval) (kw : kwargs) : coroutine pyval :=
  try_except_Exception (callback kw)
    (fun e => call_on_message_handle_error (handler_delegate h) e kw).

(** A task of the event loop wraps a coroutine; [create_task] schedules it
    and gives the task back without running it. *)
Definition Task : Type := coroutine pyval.

Definition event_loop : Type := list Task.

Definition create_task (coro : coroutine pyval) (loop : event_loop)
  : Task * event_loop :=
  (coro, (loop ++ [coro])%list).

(** The outcome the event loop stores in a task once it has run it. *)
Definition run_task (t : Task) (s : state) : result pyval * state := t s.

(** *** [AsyncJsonQueue] *)

Definition serialize (body : pyval) (ensure_ascii : bool) : result string :=
  Json.dumps body ensure_ascii.

(** [json.loads(body.decode())]: only [bytes] has a [decode] method. *)
Definition deserialize (body : pyval) : result pyval :=
  match body with
  | PyBytes b =>
      match Utf8.decode b with
      | Some text => Json.loads text
      | None => Raise (new_exn UnicodeDecodeError "invalid start byte")
      end
  | _ => Raise (new_exn AttributeError "object has no attribute 'decode'")
  end.

(** [msg = AMQPMessage(...)] in [handle_message]. *)
Definition delivery_message (h : _ConsumptionHandler) (ch : Channel)
  (body : bytes) (envelope : Envelope) (properties : Properties) : AMQPMessage :=
  {| msg_channel := ch;
     msg_envelope := envelope;
     msg_properties := properties;
     msg_delivery_tag := envelope_delivery_tag envelope;
     msg_deserialization_method := deserialize;
     msg_queue_name := handler_queue_name h;
     msg_serialized_data := body |}.

Definition handle_message (h : _ConsumptionHandler) (ch : Channel)
  (body : bytes) (envelope : Envelope) (properties : Properties)
  (loop : event_loop) (s : state) : result Task * state * event_loop :=
  let msg := delivery_message h ch body envelope properties in
  let callback :=
    _handle_callback h (call_on_queue_message (handler_delegate h))
      [("msg", msg)] in
  let '(task, loop') := create_task callback loop in
  (Ok task, s, loop').

(** Modelled from the spec: a connection that has just been built is not
    connected and has no channel ([AMQPConnection.__init__] is the missing
    part). *)
Definition new_connection : AMQPConnection :=
  {| is_connected := false; channel := None |}.

Definition __init__ (host username password : string)
  (delegate_class : option (unit -> AsyncQueueConsumerDelegate))
  (delegate : option AsyncQueueConsumerDelegate)
  (virtual_host : string) (heartbeat prefetch_count max_message_length : Z)
  (seconds_between_conn_retry : Z) (logger : option Logger)
  : result AsyncJsonQueue :=
  match delegate, delegate_class with
  | Some _, Some _ =>
      Raise (new_exn ValueError "Cant provide both delegate and delegate_class")
  | _, _ =>
      let the_delegate :=
        match delegate_class with
        | Some cls => Some (cls tt)
        | None => delegate
        end in
      if (max_message_length <? 0)%Z
      then Raise (new_exn ValueError "max_message_length must be a positive integer")
      else
        Ok {| base := {| host := host; username := username;
                         password := password; virtual_host := virtual_host;
                         heartbeat := heartbeat |};
              delegate := the_delegate;
              prefetch_count := prefetch_count;
              max_message_length := max_message_length;
              connection := new_connection;
              seconds_between_conn_retry := seconds_between_conn_retry;
              is_running := true;
              logger := logger |}
  end.

(** [self.connection.channel.<primitive>]: the attribute lookup fails on
    [None]. *)
Definition current_channel : coroutine Channel :=
  fun s =>
    match channel (connection (self s)) with
    | Some ch => (Ok ch, s)
    | None =>
        (Raise (new_exn AttributeError "'NoneType' object has no attribute"), s)
    end.

Definition ack_coro (msg : AMQPMessage) : coroutine pyval :=
  perform (fun _ => EvBasicClientAck (msg_channel msg) (msg_delivery_tag msg))
    (basic_client_ack io (msg_channel msg) (msg_delivery_tag msg)).

Definition reject_coro (args : AMQPMessage * bool) : coroutine pyval :=
  let '(msg, requeue) := args in
  perform (fun _ => EvBasicReject (msg_channel msg) (msg_delivery_tag msg) requeue)
    (basic_reject io (msg_channel msg) (msg_delivery_tag msg) requeue).

Record put_args : Type := {
  put_routing_key : string;
  put_data : pyval;
  put_serialized_data : pyval;
  put_exchange : string
}.

(** [serialized_data.encode()] when it is not [bytes] already. *)
Definition coerce_to_bytes (serialized_data : pyval) : coroutine bytes :=
  match serialized_data with
  | PyBytes b => ret b
  | PyStr text => ret (Utf8.encode text)
  | _ => raise (new_exn AttributeError "object has no attribute 'encode'")
  end.

Definition put_coro (args : put_args) : coroutine pyval :=
  if truthy (put_data args) && truthy (put_serialized_data args)
  then raise (new_exn ValueError "Only one of data or json should be specified")
  else
    bindc
      (if truthy (put_data args)
       then
         match serialize (put_data args) false with
         | Ok text => ret (PyStr text)
         | Raise e => raise e
         end
       else ret (put_serialized_data args))
      (fun serialized_data =>
         bindc (coerce_to_bytes serialized_data) (fun payload =>
         bindc current_channel (fun ch =>
         perform
           (fun _ => EvPublish ch payload (put_exchange args) (put_routing_key args))
           (publish io ch payload (put_exchange args) (put_routing_key args))))).

Record consume_args : Type := {
  consume_queue_name : string;
  consume_delegate : AsyncQueueConsumerDelegate;
  consume_consumer_name : string
}.

Fixpoint lookup (key : string) (d : list (string * string)) : option string :=
  match d with
  | [] => None
  | (k, v) :: d' => if (k =? key)%string then Some v else lookup key d'
  end.

(** [tag["consumer_tag"]] *)
Definition getitem (d : list (string * string)) (key : string) : coroutine string :=
  match lookup key d with
  | Some v => ret v
  | None => raise (new_exn KeyError key)
  end.

(** The handler is an object the channel keeps as its callback: it is
    allocated in [handlers], and the channel is given its index. *)
Definition new_handler (h : _ConsumptionHandler) : coroutine nat :=
  fun s =>
    (Ok (List.length (handlers s)),
     {| self := self s; handlers := (handlers s ++ [h])%list;
        world := world s; trace := trace s |}).

Fixpoint update_nth {A : Type} (n : nat) (f : A -> A) (l : list A) : list A :=
  match l, n with
  | [], _ => []
  | a :: l', O => f a :: l'
  | a :: l', S n' => a :: update_nth n' f l'
  end.

(** [handler.consumer_tag = consumer_tag] *)
Definition set_consumer_tag (hid : nat) (consumer_tag : string) : coroutine unit :=
  fun s =>
    (Ok tt,
     {| self := self s;
        handlers :=
          update_nth hid
            (fun h => {| handler_delegate := handler_delegate h;
                         handler_queue_name := handler_queue_name h;
                         handler_consumer_tag := Some consumer_tag |})
            (handlers s);
        world := world s; trace := trace s |}).

Definition consume_coro (args : consume_args) : coroutine string :=
  let d := consume_delegate args in
  bindc (new_handler {| handler_delegate := d;
                        handler_queue_name := consume_queue_name args;
                        handler_consumer_tag := None |}) (fun hid =>
  bindc (perform (fun _ => EvOnBeforeStartConsumption (consume_queue_name args))
           (on_before_start_consumption d (consume_queue_name args))) (fun _ =>
  bindc current_channel (fun ch =>
  bindc (gets (fun s => prefetch_count (self s))) (fun prefetch =>
  bindc (perform (fun _ => EvBasicQos ch prefetch 0 false)
           (basic_qos io ch prefetch 0 false)) (fun _ =>
  bindc current_channel (fun ch' =>
  bindc (perform
           (fun _ => EvBasicConsume ch' hid (consume_consumer_name args)
                       (consume_queue_name args))
           (basic_consume io ch' hid (consume_consumer_name args)
              (consume_queue_name args))) (fun tag =>
  bindc (getitem tag "consumer_tag") (fun consumer_tag =>
  bindc (perform (fun _ => EvOnConsumptionStart consumer_tag)
           (on_consumption_start d consumer_tag)) (fun _ =>
  bindc (set_consumer_tag hid consumer_tag) (fun _ =>
  ret consumer_tag)))))))))).

(** The decorated methods. *)
Definition ack := _ensure_connected ack_coro.
Definition reject := _ensure_connected reject_coro.
Definition put := _ensure_connected put_coro.
Definition consume := _ensure_connected consume_coro.

(** [stop_consumer] is not decorated. *)
Definition stop_consumer (consumer_tag : string) : coroutine pyval :=
  fun s =>
    match channel (connection (self s)) with
    | None =>
        (Raise (new_exn ConnectionError
           "Queue isn't connected. Did you forgot to wait for `connect()`?"), s)
    | Some ch =>
        perform (fun _ => EvBasicCancel ch consumer_tag)
          (basic_cancel io ch consumer_tag) s
    end.

End Client.

Arguments await : clear implicits.
Arguments coroutine : clear implicits.
Arguments AsyncQueueConsumerDelegate : clear implicits.
Arguments AsyncJsonQueue : clear implicits.
Arguments _ConsumptionHandler : clear implicits.
Arguments state : clear implicits.
Arguments Collaborators : clear implicits.
Arguments Task : clear implicits.
Arguments event_loop : clear implicits.
Arguments consume_args : clear implicits.

(** ** Reading a trace *)

(** The exceptions of the connection attempts that [except Exception]
    caught. *)
Fixpoint failed_attempts (t : list event) : list exn :=
  match t with
  | [] => []
  | EvConnect (Raise e) :: t' =>
      if isinstance_Exception e then e :: failed_attempts t'
      else failed_attempts t'
  | _ :: t' => failed_attempts t'
  end.

(** The reports handed to the logger. *)
Fixpoint reports (t : list event) : list reconnect_failure :=
  match t with
  | [] => []
  | EvLoggerError _ r :: t' => r :: reports t'
  | _ :: t' => reports t'
  end.

Definition is_publish (ev : event) : bool :=
  match ev with
  | EvPublish _ _ _ _ => true
  | _ => false
  end.

Definition is_connect (ev : event) : bool :=
  match ev with
  | EvConnect _ => true
  | _ => false
  end.

Definition is_handle_error (ev : event) : bool :=
  match ev with
  | EvOnMessageHandleError _ _ => true
  | _ => false
  end.

(** The events of the guard: connection attempts, sleeps and reports. *)
Definition is_guard_event (ev : event) : bool :=
  match ev with
  | EvConnect _ | EvSleep _ | EvLoggerError _ _ => true
  | _ => false
  end.

(** The reports of the failures [es], numbered from [retries + 1]. *)
Fixpoint numbered (retries : Z) (es : list exn) : list reconnect_failure :=
  match es with
  | [] => []
  | e :: es' =>
      failure_report (retries + 1) e :: numbered (retries + 1) es'
  end.

(** What a run of failed attempts leaves in the trace: for each failure the
    attempt, the sleep and, with a logger, the report. *)
Fixpoint retry_events (seconds : Z) (lg : option Logger) (retries : Z)
  (es : list exn) : list event :=
  match es with
  | [] => []
  | e :: es' =>
      ([EvConnect (Raise e); EvSleep seconds]
       ++ match lg with
          | Some l => [EvLoggerError l (failure_report (retries + 1) e)]
          | None => []
          end
       ++ retry_events seconds lg (retries + 1) es')%list
  end.

(** ** Runs of the retry loop

    [failing_run io r s es r' s']: from the loop head at state [s] with
    [retries = r], the loop goes through one iteration per exception of
    [es], each a connection attempt that raised it followed by a sleep that
    returned, and is back at its head at state [s'] with [retries = r']. *)
Inductive failing_run {W : Type} (io : Collaborators W)
  : Z -> state W -> list exn -> Z -> state W -> Prop :=
| failing_run_nil : forall r s, failing_run io r s [] r s
| failing_run_cons : forall r s e s1 r1 s3 es r' s',
    must_connect s = true ->
    connect_attempt io s = (Raise e, s1) ->
    isinstance_Exception e = true ->
    after_failure io r e s1 = (Ok r1, s3) ->
    failing_run io r1 s3 es r' s' ->
    failing_run io r s (e :: es) r' s'.

(** [self.max_message_length = m] *)
Definition with_max_message_length {W : Type} (m : Z) (s : state W) : state W :=
  {| self :=
       {| base := base (self s);
          delegate := delegate (self s);
          prefetch_count := prefetch_count (self s);
          max_message_length := m;
          connection := connection (self s);
          seconds_between_conn_retry := seconds_between_conn_retry (self s);
          is_running := is_running (self s);
          logger := logger (self s) |};
     handlers := handlers s;
     world := world s;
     trace := trace s |}.

(** The attributes [__init__] sets and no method assigns afterwards. *)
Definition same_settings {W : Type} (q q' : AsyncJsonQueue W) : Prop :=
  base q' = base q /\ delegate q' = delegate q
  /\ prefetch_count q' = prefetch_count q
  /\ max_message_length q' = max_message_length q
  /\ seconds_between_conn_retry q' = seconds_between_conn_retry q
  /\ logger q' = logger q.

(** How the guard itself ends a call with the exception [e], given the
    events [g] it leaves: its last connection attempt raised [e], which
    [except Exception] does not catch, or the sleep after a failed attempt
    raised [e]. *)
Definition guard_raised (g : list event) (e : exn) : Prop :=
  (exists g0,
      g = (g0 ++ [EvConnect (Raise e)])%list /\ isinstance_Exception e = false)
  \/ (exists g0 e0 seconds,
         g = (g0 ++ [EvConnect (Raise e0); EvSleep seconds])%list
         /\ isinstance_Exception e0 = true).

(** [runs_body_only_if P op coro]: whenever the guarded operation [op]
    returns, the guard has first made its own calls [g], and nothing else,
    from the state of the call; then either it handed the call over to the
    body [coro], at a state where [P] holds, or the body did not run at all
    because the guard raised. *)
Definition runs_body_only_if {W A R : Type} (P : state W -> Prop)
  (op : nat -> A -> state W -> option (result R * state W))
  (coro : A -> coroutine W R) : Prop :=
  forall fuel args s out,
    op fuel args s = Some out ->
    exists g sg,
      trace sg = (trace s ++ g)%list
      /\ forallb is_guard_event g = true
      /\ ((P sg /\ out = coro args sg)
          \/ (exists e, out = (Raise e, sg) /\ guard_raised g e)).

(** On a client whose liveness flag is false the guard does nothing: the
    body runs at once, on the state of the call. *)
Definition straight_to_body_when_stopped {W A R : Type}
  (op : nat -> A -> state W -> option (result R * state W))
  (coro : A -> coroutine W R) : Prop :=
  forall fuel args s,
    is_running (self s) = false -> op fuel args s = Some (coro args s).

Definition connected_state {W : Type} (s : state W) : Prop :=
  is_connected (connection (self s)) = true.

Definition connected_or_stopped {W : Type} (s : state W) : Prop :=
  is_connected (connection (self s)) = true \/ is_running (self s) = false.

(** The three ways out of the retry loop: the connection reports
    connected, the liveness flag is false, or a connection attempt has just
    returned without raising. *)
Definition loop_exit {W : Type} (s : state W) : Prop :=
  is_connected (connection (self s)) = true
  \/ is_running (self s) = false
  \/ exists before, trace s = (before ++ [EvConnect (Ok tt)])%list.

(** Modelled from the spec: a connection attempt that returns has
    established the connection ([AMQPConnection._connect] is the missing
    part). *)
Definition connect_establishes {W : Type} (io : Collaborators W) : Prop :=
  forall x w x' w',
    _connect io x w = (Ok tt, x', w') -> is_connected (x_connection x') = true.

(** An outcome with [max_message_length] set to [m] in its state. *)
Definition carried {W A : Type} (m : Z) (out : result A * state W)
  : result A * state W :=
  (fst out, with_max_message_length m (snd out)).

(** A coroutine that behaves the same whatever [max_message_length] is. *)
Definition ignores_max_message_length {W A : Type} (c : coroutine W A) : Prop :=
  forall m s, c (with_max_message_length m s) = carried m (c s).

(** ** A scripted world

    The outcomes of the coming connection attempts, and after how many
    sleeps another task clears [is_running].  A successful attempt opens a
    channel; the channel primitives succeed. *)
Module Scenario.

Record script : Type := {
  attempts : list (result unit);
  sleeps_before_stop : option nat;
  next_channel : Channel
}.

Definition connect_ : await script unit :=
  fun x w =>
    match attempts w with
    | Raise e :: rest =>
        (Raise e, x,
         {| attempts := rest; sleeps_before_stop := sleeps_before_stop w;
            next_channel := next_channel w |})
    | outcome =>
        (Ok tt,
         {| x_is_running := x_is_running x;
            x_connection := {| is_connected := true;
                               channel := Some (next_channel w) |} |},
         {| attempts := tl outcome; sleeps_before_stop := sleeps_before_stop w;
            next_channel := S (next_channel w) |})
    end.

Definition sleep_ (seconds : Z) : await script unit :=
  fun x w =>
    match sleeps_before_stop w with
    | Some O =>
        (Ok tt,
         {| x_is_running := false; x_connection := x_connection x |},
         {| attempts := attempts w; sleeps_before_stop := None;
            next_channel := next_channel w |})
    | Some (S n) =>
        (Ok tt, x,
         {| attempts := attempts w; sleeps_before_stop := Some n;
            next_channel := next_channel w |})
    | None => (Ok tt, x, w)
    end.

Definition done {A : Type} (a : A) : await script A := fun x w => (Ok a, x, w).

Definition io : Collaborators script :=
  {| _connect := connect_;
     asyncio_sleep := sleep_;
     publish := fun _ _ _ _ => done PyNone;
     basic_qos := fun _ _ _ _ => done PyNone;
     basic_consume := fun _ _ name _ =>
       done [("consumer_tag", if (name =? "")%string then "ctag1" else name)];
     basic_cancel := fun _ _ => done PyNone;
     basic_client_ack := fun _ _ => done PyNone;
     basic_reject := fun _ _ _ => done PyNone |}.

Definition timeout : exn :=
  mk_exn OSError "Connect call failed" ["aioamqp/__init__.py, in connect"].

Definition refused : exn :=
  mk_exn ConnectionError "Connection refused" ["asyncio/base_events.py, in create_connection"].

(** A delegate that does nothing, and one whose message handler raises. *)
Definition quiet : AsyncQueueConsumerDelegate script :=
  {| on_before_start_consumption := fun _ => pass;
     on_consumption_start := fun _ => pass;
     on_queue_message := fun _ => pass;
     on_message_handle_error := fun _ _ => pass;
     on_connection_error := fun _ => pass |}.

Definition failing (e : exn) : AsyncQueueConsumerDelegate script :=
  {| on_before_start_consumption := fun _ => pass;
     on_consumption_start := fun _ => pass;
     on_queue_message := fun _ x w => (Raise e, x, w);
     on_message_handle_error := fun _ _ => pass;
     on_connection_error := fun _ => pass |}.

Definition queue (running : bool) (c : AMQPConnection) (lg : option Logger)
  : AsyncJsonQueue script :=
  {| base := {| host := "localhost"; username := "guest"; password := "guest";
                virtual_host := "/"; heartbeat := 60 |};
     delegate := None;
     prefetch_count := 100;
     max_message_length := 0;
     connection := c;
     seconds_between_conn_retry := 1;
     is_running := running;
     logger := lg |}.

Definition start (q : AsyncJsonQueue script) (w : script) : state script :=
  {| self := q; handlers := []; world := w; trace := [] |}.

Definition disconnected : AMQPConnection := new_connection.

Definition connected : AMQPConnection :=
  {| is_connected := true; channel := Some 7%nat |}.

(** A client that was stopped before it ever connected. *)
Definition stopped : state script :=
  start (queue false disconnected None)
    {| attempts := []; sleeps_before_stop := None; next_channel := 1%nat |}.

(** A running client, not connected; the broker refuses twice and then
    accepts. *)
Definition third_time_lucky : state script :=
  start (queue true disconnected (Some "easyqueue"))
    {| attempts := [Raise timeout; Raise refused; Ok tt];
       sleeps_before_stop := None; next_channel := 1%nat |}.

(** A running client, not connected; the broker keeps refusing and the
    application clears [is_running] during the second sleep. *)
Definition stopped_while_retrying : state script :=
  start (queue true disconnected (Some "easyqueue"))
    {| attempts := [Raise timeout; Raise refused; Raise refused; Raise refused];
       sleeps_before_stop := Some 1%nat; next_channel := 1%nat |}.

(** A running client, not connected, that connects at once. *)
Definition first_time : state script :=
  start (queue true disconnected None)
    {| attempts := [Ok tt]; sleeps_before_stop := None; next_channel := 1%nat |}.

(** A running, connected client. *)
Definition online : state script :=
  start (queue true connected None)
    {| attempts := []; sleeps_before_stop := None; next_channel := 8%nat |}.

Definition both_given : put_args :=
  {| put_routing_key := "orders";
     put_data := PyDict [(PyStr "id", PyInt 1)];
     put_serialized_data := PyStr "{}";
     put_exchange := "" |}.

Definition payload_only (payload : bytes) : put_args :=
  {| put_routing_key := "orders";
     put_data := PyNone;
     put_serialized_data := PyBytes payload;
     put_exchange := "" |}.

Definition envelope : Envelope :=
  {| envelope_consumer_tag := "ctag1";
     envelope_delivery_tag := 1;
     envelope_exchange_name := "";
     envelope_routing_key := "orders";
     envelope_is_redeliver := false |}.

Definition handler (d : AsyncQueueConsumerDelegate script)
  : _ConsumptionHandler script :=
  {| handler_delegate := d;
     handler_queue_name := "orders";
     handler_consumer_tag := Some "ctag1" |}.

Definition boom : exn := mk_exn RuntimeError "boom" ["app.py, in on_queue_message"].

(** The state one failed attempt leads to: the attempt, the sleep and the
    report. *)
Definition fail_once (retries : Z) (e : exn) (s : state script) : state script :=
  snd (after_failure io retries e (snd (connect_attempt io s))).

Definition after_two_refusals : state script :=
  Eval vm_compute in fail_once 1 refused (fail_once 0 timeout third_time_lucky).

Definition connected_at_third : state script :=
  Eval vm_compute in snd (connect_attempt io after_two_refusals).

Definition halted : state script :=
  Eval vm_compute in fail_once 1 refused (fail_once 0 timeout stopped_while_retrying).

Definition connected_at_first : state script :=
  Eval vm_compute in snd (connect_attempt io first_time).

End Scenario.

(** ** Further readings of a trace and of the arguments *)

Definition is_cancel (ev : event) : bool :=
  match ev with
  | EvBasicCancel _ _ => true
  | _ => false
  end.

(** The durations handed to [asyncio.sleep]. *)
Fixpoint sleeps (t : list event) : list Z :=
  match t with
  | [] => []
  | EvSleep seconds :: t' => seconds :: sleeps t'
  | _ :: t' => sleeps t'
  end.

(** The arguments of a call of [put] with [data] left to its default. *)
Definition without_data (args : put_args) : put_args :=
  {| put_routing_key := put_routing_key args;
     put_data := PyNone;
     put_serialized_data := put_serialized_data args;
     put_exchange := put_exchange args |}.

(** The program right after the construction of the client [q]. *)
Definition fresh {W : Type} (q : AsyncJsonQueue W) (w : W) : state W :=
  {| self := q; handlers := []; world := w; trace := [] |}.

(** The handler [consume] builds, with the consumer tag it ends with. *)
Definition consume_handler {W : Type} (args : consume_args W)
  (tag : option string) : _ConsumptionHandler W :=
  {| handler_delegate := consume_delegate args;
     handler_queue_name := consume_queue_name args;
     handler_consumer_tag := tag |}.

(** The calls of [consume] that follow the [on_before_start_consumption]
    hook, when all of them are made. *)
Definition consume_calls {W : Type} (args : consume_args W) (s : state W)
  (ch ch' : Channel) (tag : string) : list event :=
  [EvBasicQos ch (prefetch_count (self s)) 0 false;
   EvBasicConsume ch' (List.length (handlers s)) (consume_consumer_name args)
     (consume_queue_name args);
   EvOnConsumptionStart tag].

(** The task [handle_message] creates for a message. *)
Definition delivery_task {W : Type} (h : _ConsumptionHandler W)
  (msg : AMQPMessage) : Task W :=
  _handle_callback h (call_on_queue_message (handler_delegate h))
    [("msg", msg)].

(** The events a delivery task leaves: the call of the message handler and,
    when that raised an [Exception], the call of the error hook. *)
Definition delivery_events (msg : AMQPMessage) (rest : list event) : Prop :=
  rest = []
  \/ exists e,
       isinstance_Exception e = true
       /\ rest = [EvOnMessageHandleError e [("msg", msg)]].

(** ** A broker that is down

    The world of the scripted scenario, with a connection that refuses
    every attempt. *)
Module Outage.

Definition refuse : await Scenario.script unit :=
  fun x w => (Raise Scenario.refused, x, w).

Definition io : Collaborators Scenario.script :=
  {| _connect := refuse;
     asyncio_sleep := Scenario.sleep_;
     publish := publish Scenario.io;
     basic_qos := basic_qos Scenario.io;
     basic_consume := basic_consume Scenario.io;
     basic_cancel := basic_cancel Scenario.io;
     basic_client_ack := basic_client_ack Scenario.io;
     basic_reject := basic_reject Scenario.io |}.

(** The client keeps running, stays disconnected, and nobody stops it. *)
Definition down (s : state Scenario.script) : Prop :=
  is_running (self s) = true
  /\ is_connected (connection (self s)) = false
  /\ Scenario.sleeps_before_stop (world s) = None.

Definition cancelled : exn :=
  mk_exn CancelledError "" ["asyncio/tasks.py, in cancel"].

(** A running client, not connected; the first attempt times out and the
    task is cancelled during the second. *)
Definition cancelled_while_connecting : state Scenario.script :=
  Scenario.start (Scenario.queue true Scenario.disconnected (Some "easyqueue"))
    {| Scenario.attempts := [Raise Scenario.timeout; Raise cancelled];
       Scenario.sleeps_before_stop := None;
       Scenario.next_channel := 1%nat |}.

Definition after_timeout : state Scenario.script :=
  Eval vm_compute in Scenario.fail_once 0 Scenario.timeout cancelled_while_connecting.

Definition at_cancellation : state Scenario.script :=
  Eval vm_compute in snd (connect_attempt Scenario.io after_timeout).

(** A message delivered on a channel that is not the current one. *)
Definition stale_message : AMQPMessage :=
  {| msg_channel := 3%nat;
     msg_envelope := Scenario.envelope;
     msg_properties := [];
     msg_delivery_tag := 42;
     msg_deserialization_method := deserialize;
     msg_queue_name := "orders";
     msg_serialized_data := [] |}.

Definition subscription : consume_args Scenario.script :=
  {| consume_queue_name := "orders";
     consume_delegate := Scenario.quiet;
     consume_consumer_name := "" |}.

(** A delegate whose [on_consumption_start] hook raises. *)
Definition fragile : AsyncQueueConsumerDelegate Scenario.script :=
  {| on_before_start_consumption := fun _ => pass;
     on_consumption_start := fun _ x w => (Raise Scenario.boom, x, w);
     on_queue_message := fun _ => pass;
     on_message_handle_error := fun _ _ => pass;
     on_connection_error := fun _ => pass |}.

Definition fragile_subscription : consume_args Scenario.script :=
  {| consume_queue_name := "orders";
     consume_delegate := fragile;
     consume_consumer_name := "worker" |}.

Definition empty_dict_only : put_args :=
  {| put_routing_key := "orders";
     put_data := PyDict [];
     put_serialized_data := PyStr "";
     put_exchange := "" |}.

Definition data_only (data : pyval) : put_args :=
  {| put_routing_key := "orders";
     put_data := data;
     put_serialized_data := PyStr "";
     put_exchange := "" |}.

Definition text_only (text : string) : put_args :=
  {| put_routing_key := "orders";
     put_data := PyNone;
     put_serialized_data := PyStr text;
     put_exchange := "" |}.

Definition order : pyval :=
  PyDict [(PyStr "id", PyInt 1); (PyStr "name", PyStr (String "233" "t"))].

End Outage.

(** ** A task cancelled in its sleep

    The world of the scripted scenario again, with a task that is cancelled
    whenever the guard sleeps. *)
Module Interrupted.

Definition cancelled_sleep (seconds : Z) : await Scenario.script unit :=
  fun x w => (Raise Outage.cancelled, x, w).

Definition io : Collaborators Scenario.script :=
  {| _connect := _connect Scenario.io;
     asyncio_sleep := cancelled_sleep;
     publish := publish Scenario.io;
     basic_qos := basic_qos Scenario.io;
     basic_consume := basic_consume Scenario.io;
     basic_cancel := basic_cancel Scenario.io;
     basic_client_ack := basic_client_ack Scenario.io;
     basic_reject := basic_reject Scenario.io |}.

(** The first attempt of [Scenario.third_time_lucky] has timed out. *)
Definition timed_out : state Scenario.script :=
  Eval vm_compute in snd (connect_attempt io Scenario.third_time_lucky).

(** The task was cancelled in the sleep that followed. *)
Definition in_the_sleep : state Scenario.script :=
  Eval vm_compute in
    snd (sleep io (seconds_between_conn_retry (self timed_out)) timed_out).

End Interrupted.

Example dumps_example :
  Json.dumps (PyList [PyInt 1; PyTuple [PyNone; PyBool true]; PyInt (-20)]) true
  = Ok "[1, [null, true], -20]".
Proof. reflexivity. Qed.

Example dumps_string_example :
  Json.dumps (PyDict [(PyInt 1, PyStr (String "a" (String "010" (String "233" ""))))]) true
  = Ok ("{" ++ Json.quotation_mark ++ "1" ++ Json.quotation_mark ++ ": "
        ++ Json.quotation_mark ++ "a" ++ Json.escaped "n" ++ Json.escaped "u"
        ++ "00e9" ++ Json.quotation_mark ++ "}").
Proof. reflexivity. Qed.

Example loads_example :
  Json.loads " [1 , [ null,true] ,{ } , -20 ] "
  = Ok (PyList [PyInt 1; PyList [PyNone; PyBool true]; PyDict []; PyInt (-20)]).
Proof. vm_compute. reflexivity. Qed.

Example loads_object_example :
  Json.loads ("{" ++ Json.quotation_mark ++ "id" ++ Json.quotation_mark ++ ": 1, "
              ++ Json.quotation_mark ++ "id" ++ Json.quotation_mark ++ " : ["
              ++ Json.quotation_mark ++ "a" ++ Json.escaped "u" ++ "00E9"
              ++ Json.quotation_mark ++ "]}")
  = Ok (PyDict [(PyStr "id", PyList [PyStr (String "a" (String "233" ""))])]).
Proof. vm_compute. reflexivity. Qed.

(** * Properties *)

Local Open Scope list_scope.

(** ** The connection guard *)

Section Guard.

Context {W : Type} (io : Collaborators W).

Lemma same_settings_refl (q : AsyncJsonQueue W) : same_settings q q.
Proof. repeat split. Qed.

Lemma same_settings_trans (q1 q2 q3 : AsyncJsonQueue W) :
  same_settings q1 q2 -> same_settings q2 q3 -> same_settings q1 q3.
Proof.
  unfold same_settings. intros H12 H23.
  destruct H12 as (a1 & a2 & a3 & a4 & a5 & a6).
  destruct H23 as (b1 & b2 & b3 & b4 & b5 & b6).
  repeat split; congruence.
Qed.

Lemma perform_inv {A : Type} (ev : result A -> event) (op : await W A) s r s1 :
  perform ev op s = (r, s1) ->
  trace s1 = trace s ++ [ev r]
  /\ handlers s1 = handlers s
  /\ same_settings (self s) (self s1).
Proof.
  unfold perform. destruct (op (expose (self s)) (world s)) as [[r0 x] w].
  intros H. inversion H. subst. simpl. repeat split.
Qed.

Lemma connect_attempt_inv s r s1 :
  connect_attempt io s = (r, s1) ->
  trace s1 = trace s ++ [EvConnect r] /\ same_settings (self s) (self s1).
Proof.
  intros H. apply perform_inv in H. tauto.
Qed.

Lemma connect_attempt_handlers s r s1 :
  connect_attempt io s = (r, s1) -> handlers s1 = handlers s.
Proof.
  intros H. apply perform_inv in H. tauto.
Qed.

(** The handler of a failed attempt: the sleep returned and the failure
    was counted and, with a logger, reported; or the sleep raised and
    nothing followed it. *)
Lemma after_failure_inv r e s res s3 :
  after_failure io r e s = (res, s3) ->
  same_settings (self s) (self s3)
  /\ handlers s3 = handlers s
  /\ ((res = Ok (r + 1)%Z
       /\ trace s3
          = trace s ++ EvSleep (seconds_between_conn_retry (self s))
              :: match logger (self s) with
                 | Some l => [EvLoggerError l (failure_report (r + 1) e)]
                 | None => []
                 end)
      \/ (exists e',
            res = Raise e'
            /\ trace s3 = trace s ++ [EvSleep (seconds_between_conn_retry (self s))])).
Proof.
  unfold after_failure, sleep.
  destruct (perform _ _ s) as [[u|e'] s2] eqn:Hs; intros H;
    apply perform_inv in Hs; destruct Hs as (Ht & Hh & Hq);
    inversion H; subst; clear H.
  - assert (Hl : logger (self s2) = logger (self s)) by apply Hq.
    unfold log_failure. rewrite Hl.
    destruct (logger (self s)); simpl;
      (split; [exact Hq|]); (split; [exact Hh|]); left;
      (split; [reflexivity|]); rewrite Ht, <- ?List.app_assoc; reflexivity.
  - split; [exact Hq|]. split; [exact Hh|]. right. exists e'. auto.
Qed.

(** A run of failed attempts leaves exactly its attempts, sleeps and
    reports in the trace, and counts its failures. *)
Lemma failing_run_inv r s es r' s' :
  failing_run io r s es r' s' ->
  trace s' = trace s
             ++ retry_events (seconds_between_conn_retry (self s))
                  (logger (self s)) r es
  /\ r' = (r + Z.of_nat (List.length es))%Z
  /\ Forall (fun e => isinstance_Exception e = true) es
  /\ same_settings (self s) (self s').
Proof.
  induction 1 as [r s | r s e s1 r1 s3 es r' s' Hc Ha He Haf Hrun IH].
  - simpl. rewrite List.app_nil_r. repeat split; auto. lia.
  - destruct (connect_attempt_inv _ _ _ Ha) as (Ht1 & Hq1).
    destruct (after_failure_inv _ _ _ _ _ Haf)
      as (Hq3 & _ & [(Hr & Ht3) | (e' & Hr & _)]); [|discriminate Hr].
    assert (Hr1 : r1 = (r + 1)%Z) by congruence. subst r1.
    destruct IH as (Ht & Hn & Hall & Hq).
    assert (Hq13 := same_settings_trans _ _ _ Hq1 Hq3).
    assert (Hsec : seconds_between_conn_retry (self s1)
                   = seconds_between_conn_retry (self s)) by apply Hq1.
    assert (Hlg : logger (self s1) = logger (self s)) by apply Hq1.
    assert (Hsec3 : seconds_between_conn_retry (self s3)
                    = seconds_between_conn_retry (self s)) by apply Hq13.
    assert (Hlg3 : logger (self s3) = logger (self s)) by apply Hq13.
    split; [|split; [|split]].
    + rewrite Ht, Ht3, Ht1, Hsec3, Hlg3, Hsec, Hlg. simpl.
      rewrite <- !List.app_assoc. simpl. reflexivity.
    + rewrite Hn. simpl List.length. lia.
    + constructor; assumption.
    + apply (same_settings_trans _ _ _ Hq13 Hq).
Qed.

Lemma failing_run_handlers r s es r' s' :
  failing_run io r s es r' s' -> handlers s' = handlers s.
Proof.
  induction 1 as [r s | r s e s1 r1 s3 es r' s' Hc Ha He Haf Hrun IH];
    [reflexivity|].
  rewrite IH. destruct (after_failure_inv _ _ _ _ _ Haf) as (_ & Hh & _).
  rewrite Hh. apply (connect_attempt_handlers _ _ _ Ha).
Qed.

Lemma wrapper_loop_unfold fuel r (s : state W) :
  wrapper_loop io (S fuel) r s
  = if must_connect s then
      match connect_attempt io s with
      | (Ok _, s1) => Some (Ok tt, r, s1)
      | (Raise e, s1) =>
          if isinstance_Exception e then
            match after_failure io r e s1 with
            | (Ok r1, s3) => wrapper_loop io fuel r1 s3
            | (Raise e', s3) => Some (Raise e', r, s3)
            end
          else Some (Raise e, r, s1)
      end
    else Some (Ok tt, r, s).
Proof. reflexivity. Qed.

Lemma wrapper_loop_exit fuel r (s : state W) :
  must_connect s = false -> wrapper_loop io fuel r s = Some (Ok tt, r, s).
Proof. intros H. destruct fuel; simpl; rewrite H; reflexivity. Qed.

Lemma wrapper_loop_break fuel r (s s1 : state W) :
  must_connect s = true ->
  connect_attempt io s = (Ok tt, s1) ->
  wrapper_loop io (S fuel) r s = Some (Ok tt, r, s1).
Proof. intros H Ha. rewrite wrapper_loop_unfold, H, Ha. reflexivity. Qed.

Lemma wrapper_loop_propagates fuel r (s s1 : state W) e :
  must_connect s = true ->
  connect_attempt io s = (Raise e, s1) ->
  isinstance_Exception e = false ->
  wrapper_loop io (S fuel) r s = Some (Raise e, r, s1).
Proof. intros H Ha He. rewrite wrapper_loop_unfold, H, Ha, He. reflexivity. Qed.

(** An exception of the sleep ends the loop. *)
Lemma wrapper_loop_interrupted fuel r (s s1 s3 : state W) e e' :
  must_connect s = true ->
  connect_attempt io s = (Raise e, s1) ->
  isinstance_Exception e = true ->
  after_failure io r e s1 = (Raise e', s3) ->
  wrapper_loop io (S fuel) r s = Some (Raise e', r, s3).
Proof.
  intros H Ha He Haf. rewrite wrapper_loop_unfold, H, Ha, He, Haf. reflexivity.
Qed.

(** The loop goes through a run of failed attempts, one unit of fuel each. *)
Lemma wrapper_loop_run r s es r' s' :
  failing_run io r s es r' s' ->
  forall fuel,
    wrapper_loop io (List.length es + fuel) r s = wrapper_loop io fuel r' s'.
Proof.
  induction 1 as [r s | r s e s1 r1 s3 es r' s' Hc Ha He Haf Hrun IH];
    intros fuel.
  - reflexivity.
  - simpl Nat.add. rewrite wrapper_loop_unfold, Hc, Ha, He, Haf. apply IH.
Qed.

(** Every exit of the loop is a run of failed attempts followed by one of
    the four ways out: the condition of the loop, a successful attempt, an
    attempt that raised what is not caught, a sleep that raised. *)
Lemma wrapper_loop_inv fuel :
  forall r s res r' sg,
    wrapper_loop io fuel r s = Some (res, r', sg) ->
    exists es s',
      failing_run io r s es r' s'
      /\ (List.length es <= fuel)%nat
      /\ ((must_connect s' = false /\ res = Ok tt /\ sg = s')
          \/ (must_connect s' = true /\ (List.length es < fuel)%nat
              /\ connect_attempt io s' = (Ok tt, sg) /\ res = Ok tt)
          \/ (must_connect s' = true /\ (List.length es < fuel)%nat
              /\ exists e, connect_attempt io s' = (Raise e, sg)
                           /\ isinstance_Exception e = false /\ res = Raise e)
          \/ (must_connect s' = true /\ (List.length es < fuel)%nat
              /\ exists e s1 e',
                   connect_attempt io s' = (Raise e, s1)
                   /\ isinstance_Exception e = true
                   /\ after_failure io r' e s1 = (Raise e', sg)
                   /\ res = Raise e')).
Proof.
  induction fuel as [|fuel IH]; intros r s res r' sg H;
    [simpl in H | rewrite wrapper_loop_unfold in H].
  - destruct (must_connect s) eqn:Hc; [discriminate|].
    inversion H; subst. exists [], sg. split; [constructor|]. split; [simpl; lia|].
    left. auto.
  - destruct (must_connect s) eqn:Hc.
    + destruct (connect_attempt io s) as [[[]|e] s1] eqn:Ha.
      * inversion H; subst. exists [], s. split; [constructor|].
        split; [simpl; lia|]. right. left. simpl. repeat split; auto. lia.
      * destruct (isinstance_Exception e) eqn:He.
        -- destruct (after_failure io r e s1) as [[r1|e'] s3] eqn:Haf.
           ++ apply IH in H. destruct H as (es & s' & Hrun & Hlen & Hout).
              exists (e :: es), s'. split; [econstructor; eassumption|].
              split; [simpl; lia|].
              destruct Hout as [Hout | [(Hm & Hl & Hout) | [(Hm & Hl & Hout) | (Hm & Hl & Hout)]]].
              ** left. exact Hout.
              ** right. left. simpl. repeat split; try tauto. lia.
              ** right. right. left. simpl. repeat split; try tauto. lia.
              ** right. right. right. simpl. repeat split; try tauto. lia.
           ++ inversion H; subst. exists [], s. split; [constructor|].
              split; [simpl; lia|]. right. right. right. simpl.
              repeat split; auto; try lia. exists e, s1, e'. auto.
        -- inversion H; subst. exists [], s. split; [constructor|].
           split; [simpl; lia|]. right. right. left. simpl.
           repeat split; auto; try lia. exists e. auto.
    + inversion H; subst. exists [], sg. split; [constructor|].
      split; [simpl; lia|]. left. auto.
Qed.

(** More fuel does not change the answer of a loop that has exited. *)
Lemma wrapper_loop_more_fuel fuel r (s : state W) out :
  wrapper_loop io fuel r s = Some out ->
  forall fuel', (fuel <= fuel')%nat -> wrapper_loop io fuel' r s = Some out.
Proof.
  destruct out as [[res r'] sg]. intros H fuel' Hle.
  destruct (wrapper_loop_inv _ _ _ _ _ _ H) as (es & s' & Hrun & Hlen & Hout).
  replace fuel' with (List.length es + (fuel' - List.length es))%nat by lia.
  rewrite (wrapper_loop_run _ _ _ _ _ Hrun).
  destruct Hout as [(Hm & -> & ->) | [(Hm & Hl & Ha & ->)
    | [(Hm & Hl & e & Ha & He & ->) | (Hm & Hl & e & s1 & e' & Ha & He & Haf & ->)]]].
  - apply wrapper_loop_exit. exact Hm.
  - destruct (fuel' - List.length es)%nat as [|k] eqn:Hk; [lia|].
    apply wrapper_loop_break; assumption.
  - destruct (fuel' - List.length es)%nat as [|k] eqn:Hk; [lia|].
    apply wrapper_loop_propagates; assumption.
  - destruct (fuel' - List.length es)%nat as [|k] eqn:Hk; [lia|].
    eapply wrapper_loop_interrupted; eassumption.
Qed.

Lemma retry_events_guard seconds lg r es :
  forallb is_guard_event (retry_events seconds lg r es) = true.
Proof.
  revert r. induction es as [|e es IH]; intros r; [reflexivity|].
  simpl. destruct lg; simpl; apply IH.
Qed.

(** What the loop has done when it is left: the events of a run of failed
    attempts and then those of the way out. *)
Lemma wrapper_loop_tail fuel r (s : state W) res r' sg :
  wrapper_loop io fuel r s = Some (res, r', sg) ->
  exists es tail,
    trace sg = trace s
               ++ retry_events (seconds_between_conn_retry (self s))
                    (logger (self s)) r es
               ++ tail
    /\ Forall (fun e => isinstance_Exception e = true) es
    /\ handlers sg = handlers s
    /\ same_settings (self s) (self sg)
    /\ ((res = Ok tt /\ tail = [] /\ must_connect sg = false
         /\ r' = (r + Z.of_nat (List.length es))%Z)
        \/ (res = Ok tt /\ tail = [EvConnect (Ok tt)]
            /\ r' = (r + Z.of_nat (List.length es))%Z)
        \/ (exists e,
              res = Raise e /\ tail = [EvConnect (Raise e)]
              /\ isinstance_Exception e = false
              /\ r' = (r + Z.of_nat (List.length es))%Z)
        \/ (exists e e',
              res = Raise e'
              /\ tail = [EvConnect (Raise e);
                         EvSleep (seconds_between_conn_retry (self s))]
              /\ isinstance_Exception e = true
              /\ r' = (r + Z.of_nat (List.length es))%Z)).
Proof.
  intros H.
  destruct (wrapper_loop_inv _ _ _ _ _ _ H) as (es & s' & Hrun & Hlen & Hout).
  destruct (failing_run_inv _ _ _ _ _ Hrun) as (Ht & Hn & Hall & Hq).
  pose proof (failing_run_handlers _ _ _ _ _ Hrun) as Hh.
  exists es.
  destruct Hout as [(Hm & -> & ->) | [(Hm & Hl & Ha & ->)
    | [(Hm & Hl & e & Ha & He & ->) | (Hm & Hl & e & s1 & e' & Ha & He & Haf & ->)]]].
  - exists []. rewrite List.app_nil_r. repeat split; try assumption; try apply Hq.
    left. auto.
  - exists [EvConnect (Ok tt)].
    destruct (connect_attempt_inv _ _ _ Ha) as (Ht1 & Hq1).
    split; [rewrite Ht1, Ht, List.app_assoc; reflexivity|].
    split; [exact Hall|].
    split; [rewrite (connect_attempt_handlers _ _ _ Ha); exact Hh|].
    split; [exact (same_settings_trans _ _ _ Hq Hq1)|].
    right. left. auto.
  - exists [EvConnect (Raise e)].
    destruct (connect_attempt_inv _ _ _ Ha) as (Ht1 & Hq1).
    split; [rewrite Ht1, Ht, List.app_assoc; reflexivity|].
    split; [exact Hall|].
    split; [rewrite (connect_attempt_handlers _ _ _ Ha); exact Hh|].
    split; [exact (same_settings_trans _ _ _ Hq Hq1)|].
    right. right. left. exists e. auto.
  - exists [EvConnect (Raise e); EvSleep (seconds_between_conn_retry (self s))].
    destruct (connect_attempt_inv _ _ _ Ha) as (Ht1 & Hq1).
    destruct (after_failure_inv _ _ _ _ _ Haf)
      as (Hq3 & Hh3 & [(Hr & _) | (e'' & Hr & Ht3)]); [discriminate Hr|].
    assert (Hsec : seconds_between_conn_retry (self s1)
                   = seconds_between_conn_retry (self s))
      by apply (same_settings_trans _ _ _ Hq Hq1).
    split; [rewrite Ht3, Ht1, Ht, Hsec, <- !List.app_assoc; reflexivity|].
    split; [exact Hall|].
    split; [rewrite Hh3, (connect_attempt_handlers _ _ _ Ha); exact Hh|].
    split; [exact (same_settings_trans _ _ _ (same_settings_trans _ _ _ Hq Hq1) Hq3)|].
    right. right. right. exists e, e'. auto.
Qed.

(** Where the loop has to connect, it attempts a connection before it is
    left. *)
Lemma wrapper_loop_attempts_first fuel r (s : state W) res r' sg :
  must_connect s = true ->
  wrapper_loop io fuel r s = Some (res, r', sg) ->
  exists outcome rest, trace sg = trace s ++ EvConnect outcome :: rest.
Proof.
  intros Hmust Hloop.
  destruct (wrapper_loop_inv _ _ _ _ _ _ Hloop) as (es & s' & Hrun & _ & Hout).
  destruct (failing_run_inv _ _ _ _ _ Hrun) as (Ht & _).
  destruct es as [|e es].
  - inversion Hrun; subst.
    destruct Hout as [(Hm & _) | [(_ & _ & Ha & _)
      | [(_ & _ & e & Ha & _) | (_ & _ & e & s1 & e' & Ha & _ & Haf & _)]]].
    + congruence.
    + exists (Ok tt), []. apply (connect_attempt_inv _ _ _ Ha).
    + exists (Raise e), []. apply (connect_attempt_inv _ _ _ Ha).
    + exists (Raise e). eexists.
      destruct (after_failure_inv _ _ _ _ _ Haf)
        as (_ & _ & [(Hr & _) | (e'' & _ & Ht3)]); [discriminate Hr|].
      destruct (connect_attempt_inv _ _ _ Ha) as (Ht1 & _).
      rewrite Ht3, Ht1, <- List.app_assoc. reflexivity.
  - destruct (wrapper_loop_tail _ _ _ _ _ _ Hloop)
      as (es0 & tail & Ht0 & _).
    destruct es0 as [|e0 es0].
    + assert (Htail : exists tail0, trace sg = trace s' ++ tail0).
      { destruct Hout as [(_ & _ & ->) | [(_ & _ & Ha & _)
          | [(_ & _ & e1 & Ha & _) | (_ & _ & e1 & s1 & e' & Ha & _ & Haf & _)]]].
        - exists []. rewrite List.app_nil_r. reflexivity.
        - eexists. apply (connect_attempt_inv _ _ _ Ha).
        - eexists. apply (connect_attempt_inv _ _ _ Ha).
        - destruct (after_failure_inv _ _ _ _ _ Haf)
            as (_ & _ & [(Hr & _) | (e'' & _ & Ht3)]); [discriminate Hr|].
          destruct (connect_attempt_inv _ _ _ Ha) as (Ht1 & _).
          eexists. rewrite Ht3, Ht1, <- List.app_assoc. reflexivity. }
      destruct Htail as (tail0 & Htail).
      eexists. eexists. rewrite Htail, Ht. simpl.
      rewrite <- List.app_assoc. simpl. reflexivity.
    + eexists. eexists. rewrite Ht0. simpl. reflexivity.
Qed.

(** The guard only ever attempts to connect, sleeps and reports. *)
Lemma wrapper_loop_events fuel r (s : state W) res r' sg :
  wrapper_loop io fuel r s = Some (res, r', sg) ->
  exists new, trace sg = trace s ++ new /\ forallb is_guard_event new = true.
Proof.
  intros H.
  destruct (wrapper_loop_tail _ _ _ _ _ _ H)
    as (es & tail & Ht & _ & _ & _ & Hout).
  eexists. split; [exact Ht|].
  rewrite forallb_app, retry_events_guard.
  destruct Hout as [(_ & -> & _) | [(_ & -> & _)
    | [(e & _ & -> & _) | (e & e' & _ & -> & _)]]]; reflexivity.
Qed.

(** When the loop raises, the guard itself has raised. *)
Lemma wrapper_loop_raised fuel r (s : state W) e r' sg :
  wrapper_loop io fuel r s = Some (Raise e, r', sg) ->
  exists g,
    trace sg = trace s ++ g
    /\ forallb is_guard_event g = true
    /\ guard_raised g e.
Proof.
  intros H.
  destruct (wrapper_loop_tail _ _ _ _ _ _ H)
    as (es & tail & Ht & _ & _ & _ & Hout).
  eexists. split; [exact Ht|].
  rewrite forallb_app, retry_events_guard.
  destruct Hout as [(Hres & _) | [(Hres & _)
    | [(e0 & Hres & -> & He & _) | (e0 & e' & Hres & -> & He & _)]]];
    try discriminate Hres.
  - split; [reflexivity|]. left. eexists. inversion Hres; subst. auto.
  - split; [reflexivity|]. right. eexists. exists e0. eexists. auto.
Qed.

(** The state the guard hands over to the wrapped operation. *)
Lemma wrapper_loop_admits fuel r (s : state W) r' sg :
  connect_establishes io ->
  wrapper_loop io fuel r s = Some (Ok tt, r', sg) ->
  connected_or_stopped sg.
Proof.
  intros Hio H.
  destruct (wrapper_loop_inv _ _ _ _ _ _ H) as (es & s' & Hrun & Hlen & Hout).
  destruct Hout as [(Hm & _ & ->) | [(Hm & Hl & Ha & _)
    | [(Hm & Hl & e & Ha & He & Hres) | (Hm & Hl & e & s1 & e' & Ha & He & Haf & Hres)]]];
    try discriminate Hres.
  - unfold must_connect in Hm. unfold connected_or_stopped.
    destruct (is_running (self s')), (is_connected (connection (self s')));
      simpl in Hm; auto; discriminate.
  - left. unfold connected_state, connect_attempt, perform in *.
    destruct (_connect io (expose (self s')) (world s')) as [[r0 x] w] eqn:Hc.
    inversion Ha; subst. simpl. eapply Hio. exact Hc.
Qed.

Lemma wrapper_loop_leaves fuel r (s : state W) r' sg :
  wrapper_loop io fuel r s = Some (Ok tt, r', sg) -> loop_exit sg.
Proof.
  intros H.
  destruct (wrapper_loop_inv _ _ _ _ _ _ H) as (es & s' & Hrun & Hlen & Hout).
  destruct Hout as [(Hm & _ & ->) | [(Hm & Hl & Ha & _)
    | [(Hm & Hl & e & Ha & He & Hres) | (Hm & Hl & e & s1 & e' & Ha & He & Haf & Hres)]]];
    try discriminate Hres.
  - unfold must_connect in Hm. unfold loop_exit.
    destruct (is_running (self s')), (is_connected (connection (self s')));
      simpl in Hm; auto; discriminate.
  - right. right. exists (trace s'). apply (connect_attempt_inv _ _ _ Ha).
Qed.

(** Every return of a guarded operation: the calls of the guard, then the
    body on the state the guard left, unless the guard raised. *)
Lemma guarded_call {A R : Type} (coro : A -> coroutine W R)
  (P : state W -> Prop) :
  (forall fuel s r' sg,
      wrapper_loop io fuel 0 s = Some (Ok tt, r', sg) -> P sg) ->
  runs_body_only_if P (_ensure_connected io coro) coro.
Proof.
  intros HP fuel args s out H. unfold _ensure_connected in H.
  destruct (wrapper_loop io fuel 0 s) as [[[[[]|e] r'] sg]|] eqn:Hl; [| |discriminate].
  - inversion H; subst.
    destruct (wrapper_loop_events _ _ _ _ _ _ Hl) as (g & Ht & Hg).
    exists g, sg. split; [exact Ht|]. split; [exact Hg|].
    left. split; [|reflexivity]. eapply HP. exact Hl.
  - inversion H; subst.
    destruct (wrapper_loop_raised _ _ _ _ _ _ Hl) as (g & Ht & Hg & Hraised).
    exists g, sg. split; [exact Ht|]. split; [exact Hg|].
    right. exists e. auto.
Qed.

Lemma ensure_connected_loop_exit {A R : Type} (coro : A -> coroutine W R) :
  runs_body_only_if loop_exit (_ensure_connected io coro) coro.
Proof.
  apply guarded_call. intros fuel s r' sg H.
  eapply wrapper_loop_leaves. exact H.
Qed.

Lemma ensure_connected_admits {A R : Type} (coro : A -> coroutine W R) :
  connect_establishes io ->
  runs_body_only_if connected_or_stopped (_ensure_connected io coro) coro.
Proof.
  intros Hio. apply guarded_call. intros fuel s r' sg H.
  eapply wrapper_loop_admits; eassumption.
Qed.

Lemma ensure_connected_stopped {A R : Type} (coro : A -> coroutine W R) :
  straight_to_body_when_stopped (_ensure_connected io coro) coro.
Proof.
  intros fuel args s Hstop. unfold _ensure_connected.
  rewrite wrapper_loop_exit; [reflexivity|].
  unfold must_connect. rewrite Hstop. reflexivity.
Qed.

End Guard.

(** Where a connection attempt that returns has established the
    connection, the body runs connected unless the client is stopped. *)
Corollary guard_admits_connected_or_stopped :
  forall (W : Type) (io : Collaborators W) (A R : Type)
         (coro : A -> coroutine W R),
    connect_establishes io ->
    runs_body_only_if connected_or_stopped (_ensure_connected io coro) coro.
Proof.
  intros W io A R coro Hio. apply ensure_connected_admits. exact Hio.
Qed.

(** C1, as amended.  For each guarded operation ([put], [consume], [ack],
    [reject]), a call first makes the calls of the guard and nothing else;
    the body of the operation then runs on the state the guard left, once
    the guard is out of its retry loop: at that point the connection
    reports connected, or the liveness flag [is_running] is false, or a
    connection attempt has just returned without raising.  The only other
    outcome of the call is that the guard raised and the body did not run
    at all.  Connectivity is not guaranteed: on a client whose liveness
    flag is false the guard attempts nothing and the body runs at once, on
    the state of the call, connected or not. *)
Theorem guard_hands_over_at_loop_exit :
  forall (W : Type) (io : Collaborators W),
    (runs_body_only_if loop_exit (put io) (put_coro io)
     /\ straight_to_body_when_stopped (put io) (put_coro io))
    /\ (runs_body_only_if loop_exit (consume io) (consume_coro io)
        /\ straight_to_body_when_stopped (consume io) (consume_coro io))
    /\ (runs_body_only_if loop_exit (ack io) (ack_coro io)
        /\ straight_to_body_when_stopped (ack io) (ack_coro io))
    /\ (runs_body_only_if loop_exit (reject io) (reject_coro io)
        /\ straight_to_body_when_stopped (reject io) (reject_coro io)).
Proof.
  intros W io.
  repeat split;
    first [apply ensure_connected_loop_exit | apply ensure_connected_stopped].
Qed.

Lemma guard_hands_over_at_loop_exit_witness :
  put Scenario.io 1 (Scenario.payload_only [Byte.x61]) Scenario.first_time
  = Some (put_coro Scenario.io (Scenario.payload_only [Byte.x61])
            Scenario.connected_at_first)
  /\ trace (snd (put_coro Scenario.io (Scenario.payload_only [Byte.x61])
                   Scenario.connected_at_first))
     = [EvConnect (Ok tt); EvPublish 1%nat [Byte.x61] "" "orders"]
  /\ exists g sg,
       trace sg = trace Scenario.first_time ++ g
       /\ forallb is_guard_event g = true
       /\ ((loop_exit sg
            /\ put_coro Scenario.io (Scenario.payload_only [Byte.x61])
                 Scenario.connected_at_first
               = put_coro Scenario.io (Scenario.payload_only [Byte.x61]) sg)
           \/ (exists e,
                 put_coro Scenario.io (Scenario.payload_only [Byte.x61])
                   Scenario.connected_at_first = (Raise e, sg)
                 /\ guard_raised g e)).
Proof.
  split; [reflexivity|]. split; [reflexivity|].
  exact (proj1 (proj1 (guard_hands_over_at_loop_exit _ Scenario.io))
           1%nat (Scenario.payload_only [Byte.x61]) Scenario.first_time _ eq_refl).
Defined.

(** C1, as stated, fails: on a client whose [is_running] flag is false and
    which never connected, the guard makes no attempt and the body of [put]
    runs while the connection reports not connected. *)
Lemma stopped_client_runs_body_unconnected :
  put Scenario.io 0 (Scenario.payload_only [Byte.x61]) Scenario.stopped
  = Some (put_coro Scenario.io (Scenario.payload_only [Byte.x61]) Scenario.stopped)
  /\ is_connected (connection (self Scenario.stopped)) = false
  /\ ~ runs_body_only_if connected_state (put Scenario.io) (put_coro Scenario.io).
Proof.
  split; [reflexivity|]. split; [reflexivity|].
  intros H.
  destruct (H 0%nat Scenario.both_given Scenario.stopped _ eq_refl)
    as (g & sg & Ht & _ & [(Hc & Heq) | (e & Heq & Hraised)]).
  - unfold put_coro in Heq. simpl in Heq. unfold raise in Heq.
    inversion Heq; subst. discriminate Hc.
  - unfold put_coro in Heq. simpl in Heq. unfold raise in Heq.
    inversion Heq; subst. simpl in Ht.
    destruct Hraised as [(g0 & -> & _) | (g0 & e0 & seconds & -> & _)];
      destruct g0; discriminate Ht.
Qed.

(** C2.  A guarded operation is invoked on a running client whose
    connection reports not connected.  While the connection attempts fail
    (with an [Exception]), the guard sleeps the configured interval
    [seconds_between_conn_retry] after each failure and tries again.  As
    soon as an attempt succeeds, or the connection reports connected at the
    head of the loop, the wrapped operation is invoked with the original
    arguments and its outcome, result or exception, is the outcome of the
    call; the number of failures plus one attempts are enough for that.
    However the loop is left, a connection has been attempted first. *)
Theorem guard_retries_until_connected :
  forall (W : Type) (io : Collaborators W) (A R : Type)
         (coro : A -> coroutine W R) (args : A)
         (s : state W) (es : list exn) (n : Z) (s' : state W),
    is_running (self s) = true ->
    is_connected (connection (self s)) = false ->
    failing_run io 0 s es n s' ->
    trace s' = trace s
               ++ retry_events (seconds_between_conn_retry (self s))
                    (logger (self s)) 0 es
    /\ (forall s1,
          must_connect s' = true ->
          connect_attempt io s' = (Ok tt, s1) ->
          trace s1 = trace s' ++ [EvConnect (Ok tt)]
          /\ forall fuel, (List.length es < fuel)%nat ->
               _ensure_connected io coro fuel args s = Some (coro args s1))
    /\ (is_connected (connection (self s')) = true ->
        es <> []
        /\ forall fuel, (List.length es <= fuel)%nat ->
             _ensure_connected io coro fuel args s = Some (coro args s'))
    /\ (forall fuel res n' sg,
          wrapper_loop io fuel 0 s = Some (res, n', sg) ->
          exists outcome rest, trace sg = trace s ++ EvConnect outcome :: rest).
Proof.
  intros W io A R coro args s es n s' Hrunning Hdisc Hrun.
  destruct (failing_run_inv io _ _ _ _ _ Hrun) as (Ht & Hn & Hall & Hq).
  assert (Hmust : must_connect s = true).
  { unfold must_connect. rewrite Hrunning, Hdisc. reflexivity. }
  split; [exact Ht|]. split; [|split]; cycle 2.
  { intros fuel res n' sg Hloop.
    exact (wrapper_loop_attempts_first io _ _ _ _ _ _ Hmust Hloop). }
  - intros s1 Hm Ha. split.
    + apply (connect_attempt_inv io _ _ _ Ha).
    + intros fuel Hlt. unfold _ensure_connected.
      replace fuel with (List.length es + S (fuel - S (List.length es)))%nat by lia.
      rewrite (wrapper_loop_run io _ _ _ _ _ Hrun).
      rewrite (wrapper_loop_break io _ _ _ _ Hm Ha). reflexivity.
  - intros Hconn. split.
    + intros ->. inversion Hrun; subst. congruence.
    + intros fuel Hle. unfold _ensure_connected.
      replace fuel with (List.length es + (fuel - List.length es))%nat by lia.
      rewrite (wrapper_loop_run io _ _ _ _ _ Hrun).
      rewrite wrapper_loop_exit; [reflexivity|].
      unfold must_connect. rewrite Hconn. apply andb_false_r.
Qed.

Lemma guard_retries_until_connected_witness :
  is_running (self Scenario.third_time_lucky) = true
  /\ is_connected (connection (self Scenario.third_time_lucky)) = false
  /\ failing_run Scenario.io 0 Scenario.third_time_lucky
       [Scenario.timeout; Scenario.refused] 2 Scenario.after_two_refusals
  /\ put Scenario.io 3 (Scenario.payload_only [Byte.x61]) Scenario.third_time_lucky
     = Some (put_coro Scenario.io (Scenario.payload_only [Byte.x61])
               Scenario.connected_at_third).
Proof.
  assert (Hrun : failing_run Scenario.io 0 Scenario.third_time_lucky
                   [Scenario.timeout; Scenario.refused] 2
                   Scenario.after_two_refusals).
  { eapply failing_run_cons; [reflexivity | reflexivity | reflexivity | reflexivity | ].
    eapply failing_run_cons; [reflexivity | reflexivity | reflexivity | reflexivity | ].
    apply failing_run_nil. }
  split; [reflexivity|]. split; [reflexivity|]. split; [exact Hrun|].
  destruct (guard_retries_until_connected _ Scenario.io _ _
              (put_coro Scenario.io) (Scenario.payload_only [Byte.x61])
              Scenario.third_time_lucky _ _ _ eq_refl eq_refl Hrun)
    as (_ & Hok & _).
  destruct (Hok Scenario.connected_at_third eq_refl eq_refl) as (_ & Hfuel).
  apply Hfuel. simpl. lia.
Defined.

(** C3.  Once the liveness flag [is_running] is false at the head of the
    retry loop, at the call or after any number of failed attempts, the loop
    is left without a further attempt, whether or not the connection has
    been established, and the wrapped operation is invoked on that state. *)
Theorem cleared_flag_ends_the_loop :
  forall (W : Type) (io : Collaborators W) (A R : Type)
         (coro : A -> coroutine W R) (args : A)
         (s : state W) (es : list exn) (n : Z) (s' : state W),
    failing_run io 0 s es n s' ->
    is_running (self s') = false ->
    wrapper_loop io (List.length es) 0 s = Some (Ok tt, n, s')
    /\ trace s' = trace s
                  ++ retry_events (seconds_between_conn_retry (self s))
                       (logger (self s)) 0 es
    /\ forall fuel, (List.length es <= fuel)%nat ->
         _ensure_connected io coro fuel args s = Some (coro args s').
Proof.
  intros W io A R coro args s es n s' Hrun Hstop.
  assert (Hm : must_connect s' = false).
  { unfold must_connect. rewrite Hstop. reflexivity. }
  assert (Hloop : forall fuel, (List.length es <= fuel)%nat ->
                    wrapper_loop io fuel 0 s = Some (Ok tt, n, s')).
  { intros fuel Hle.
    replace fuel with (List.length es + (fuel - List.length es))%nat by lia.
    rewrite (wrapper_loop_run io _ _ _ _ _ Hrun).
    apply wrapper_loop_exit. exact Hm. }
  split; [apply Hloop; lia|]. split.
  - apply (failing_run_inv io _ _ _ _ _ Hrun).
  - intros fuel Hle. unfold _ensure_connected. rewrite (Hloop fuel Hle).
    reflexivity.
Qed.

Lemma cleared_flag_ends_the_loop_witness :
  failing_run Scenario.io 0 Scenario.stopped_while_retrying
    [Scenario.timeout; Scenario.refused] 2 Scenario.halted
  /\ is_running (self Scenario.halted) = false
  /\ is_connected (connection (self Scenario.halted)) = false
  /\ put Scenario.io 5 (Scenario.payload_only [Byte.x61])
       Scenario.stopped_while_retrying
     = Some (put_coro Scenario.io (Scenario.payload_only [Byte.x61])
               Scenario.halted).
Proof.
  assert (Hrun : failing_run Scenario.io 0 Scenario.stopped_while_retrying
                   [Scenario.timeout; Scenario.refused] 2 Scenario.halted).
  { eapply failing_run_cons; [reflexivity | reflexivity | reflexivity | reflexivity | ].
    eapply failing_run_cons; [reflexivity | reflexivity | reflexivity | reflexivity | ].
    apply failing_run_nil. }
  split; [exact Hrun|]. split; [reflexivity|]. split; [reflexivity|].
  destruct (cleared_flag_ends_the_loop _ Scenario.io _ _
              (put_coro Scenario.io) (Scenario.payload_only [Byte.x61])
              Scenario.stopped_while_retrying _ _ Scenario.halted Hrun eq_refl)
    as (_ & _ & Hfuel).
  apply Hfuel. simpl. lia.
Defined.

(** ** The reports of the guard *)

Lemma failed_attempts_app t1 t2 :
  failed_attempts (t1 ++ t2) = failed_attempts t1 ++ failed_attempts t2.
Proof.
  induction t1 as [|ev t1 IH]; [reflexivity|].
  destruct ev as [[u|e]| | | | | | | | | | | |]; simpl; try exact IH.
  destruct (isinstance_Exception e); simpl; [f_equal|]; exact IH.
Qed.

Lemma reports_app t1 t2 : reports (t1 ++ t2) = reports t1 ++ reports t2.
Proof.
  induction t1 as [|ev t1 IH]; [reflexivity|].
  destruct ev; simpl; try exact IH. f_equal. exact IH.
Qed.

Lemma failed_attempts_retry_events seconds lg r es :
  Forall (fun e => isinstance_Exception e = true) es ->
  failed_attempts (retry_events seconds lg r es) = es.
Proof.
  intros Hall. revert r.
  induction Hall as [|e es He Hall IH]; intros r; [reflexivity|].
  simpl. rewrite He. f_equal.
  destruct lg; simpl; apply IH.
Qed.

Lemma reports_retry_events seconds l r es :
  reports (retry_events seconds (Some l) r es) = numbered r es.
Proof.
  revert r. induction es as [|e es IH]; intros r; [reflexivity|].
  simpl. f_equal. apply IH.
Qed.

Lemma retry_count_numbered r es :
  map retry_count (numbered r es)
  = map (fun i => (r + Z.of_nat i)%Z) (seq 1 (List.length es)).
Proof.
  revert r. induction es as [|e es IH]; intros r; [reflexivity|].
  simpl. f_equal; try lia.
  rewrite IH, <- (seq_shift (List.length es) 1), map_map.
  apply map_ext. intros i. lia.
Qed.

Lemma exc_traceback_numbered r es :
  map exc_traceback (numbered r es)
  = map (fun e => format_tb (__traceback__ e)) es.
Proof.
  revert r. induction es as [|e es IH]; intros r; [reflexivity|].
  simpl. f_equal. apply IH.
Qed.



(** C4, as stated, fails: the sleep comes before the count and the
    report, so an attempt whose sleep is interrupted is not reported.
    Here the first attempt times out and the task is cancelled while the
    guard sleeps: one failed attempt, no report. *)
Lemma interrupted_attempt_is_not_reported :
  logger (self Scenario.third_time_lucky) = Some "easyqueue"%string
  /\ put Interrupted.io 1 (Scenario.payload_only [Byte.x61])
       Scenario.third_time_lucky
     = Some (Raise Outage.cancelled, Interrupted.in_the_sleep)
  /\ failed_attempts (trace Interrupted.in_the_sleep) = [Scenario.timeout]
  /\ reports (trace Interrupted.in_the_sleep) = [].
Proof. repeat split. Qed.

(** ** The consumption handler *)



(** C5, as stated, fails: not any exception is redirected.  A message
    handler that is cancelled raises [CancelledError], which
    [except Exception] does not catch: the error hook is not called and the
    task of the delivery ends with the cancellation. *)
Lemma cancelled_handler_is_not_redirected :
  isinstance_Exception Outage.cancelled = false
  /\ exists task,
       handle_message (Scenario.handler (Scenario.failing Outage.cancelled))
         7%nat [Byte.x7b; Byte.x7d] Scenario.envelope [] [] Scenario.online
       = (Ok task, Scenario.online, [task])
       /\ fst (run_task task Scenario.online) = Raise Outage.cancelled
       /\ map is_handle_error (trace (snd (run_task task Scenario.online)))
          = [false].
Proof.
  split; [reflexivity|]. eexists. split; [reflexivity|]. split; reflexivity.
Qed.

(** ** The operations of the client *)

Lemma put_coro_rejects_both {W : Type} (io : Collaborators W) args (s : state W) :
  truthy (put_data args) = true ->
  truthy (put_serialized_data args) = true ->
  put_coro io args s
  = (Raise (new_exn ValueError "Only one of data or json should be specified"), s).
Proof.
  intros Hd Hs. unfold put_coro. rewrite Hd, Hs. reflexivity.
Qed.

(** C7, as amended.  [put] with both [data] and [serialized_data] non-empty
    fails with a [ValueError] that the body of [put] raises before it
    serializes or publishes anything: the channel's [publish] is never
    invoked.  The guard runs before the body, so the error comes with no
    network call at all on a client that is connected or stopped, and
    otherwise after the connection attempts of the guard, which are the only
    calls the operation has made when it returns.  Every call that returns
    ends with that [ValueError], unless the guard itself raised first. *)
Theorem put_rejects_both_before_publishing :
  forall (W : Type) (io : Collaborators W) (args : put_args) (s : state W),
    truthy (put_data args) = true ->
    truthy (put_serialized_data args) = true ->
    (exists e, exn_class e = ValueError /\ put_coro io args s = (Raise e, s))
    /\ (must_connect s = false ->
        forall fuel, exists e,
          exn_class e = ValueError /\ put io fuel args s = Some (Raise e, s))
    /\ (forall fuel r s',
          put io fuel args s = Some (r, s') ->
          exists new e,
            trace s' = trace s ++ new
            /\ forallb is_guard_event new = true
            /\ existsb is_publish new = false
            /\ r = Raise e
            /\ (exn_class e = ValueError \/ guard_raised new e)).
Proof.
  intros W io args s Hd Hs.
  split; [|split].
  - eexists. split; [|apply put_coro_rejects_both; assumption]. reflexivity.
  - intros Hm fuel. eexists. split; cycle 1.
    + unfold put, _ensure_connected. rewrite wrapper_loop_exit by exact Hm.
      rewrite put_coro_rejects_both by assumption. reflexivity.
    + reflexivity.
  - intros fuel r s' H. unfold put, _ensure_connected in H.
    destruct (wrapper_loop io fuel 0 s) as [[[res r'] sg]|] eqn:Hloop;
      [|discriminate].
    assert (Hnp : forall new, forallb is_guard_event new = true ->
                    existsb is_publish new = false).
    { induction new as [|ev new IH]; [reflexivity|].
      simpl. intros Hg. apply andb_true_iff in Hg. destruct Hg as (Hev & Hg).
      rewrite (IH Hg). destruct ev; try discriminate Hev; reflexivity. }
    destruct res as [[]|e].
    + destruct (wrapper_loop_events io _ _ _ _ _ _ Hloop) as (new & Ht & Hg).
      rewrite put_coro_rejects_both in H by assumption. inversion H; subst.
      exists new. eexists. repeat split; auto.
    + destruct (wrapper_loop_raised io _ _ _ _ _ _ Hloop) as (new & Ht & Hg & Hraised).
      inversion H; subst. exists new, e. repeat split; auto.
Qed.

Lemma put_rejects_both_before_publishing_witness :
  truthy (put_data Scenario.both_given) = true
  /\ truthy (put_serialized_data Scenario.both_given) = true
  /\ exists e,
       exn_class e = ValueError
       /\ put Scenario.io 0 Scenario.both_given Scenario.online
          = Some (Raise e, Scenario.online).
Proof.
  split; [reflexivity|]. split; [reflexivity|].
  exact (proj1 (proj2 (put_rejects_both_before_publishing _ Scenario.io
                         Scenario.both_given Scenario.online eq_refl eq_refl))
           eq_refl 0%nat).
Defined.

(** C7, as stated, fails: on a running client that is not connected, the
    guard of [put] attempts a connection, a network call, before the
    [ValueError] is raised. *)
Lemma put_connects_before_rejecting :
  put Scenario.io 1 Scenario.both_given Scenario.first_time
  = Some (Raise (new_exn ValueError "Only one of data or json should be specified"),
          Scenario.connected_at_first)
  /\ trace Scenario.first_time = []
  /\ trace Scenario.connected_at_first = [EvConnect (Ok tt)].
Proof. repeat split. Qed.

Lemma init_rejects_negative_length (W : Type) host username password
  delegate_class delegate virtual_host heartbeat prefetch max_len seconds lg :
  (max_len < 0)%Z ->
  exists e,
    exn_class e = ValueError
    /\ @__init__ W host username password delegate_class delegate virtual_host
         heartbeat prefetch max_len seconds lg = Raise e.
Proof.
  intros Hneg. unfold __init__.
  apply Z.ltb_lt in Hneg. rewrite Hneg.
  destruct delegate, delegate_class; eexists; (split; [|reflexivity]);
    reflexivity.
Qed.

(** C8, as amended.  Constructing a client with a negative maximum message
    length is rejected at construction: [__init__] raises a [ValueError] and
    no client is built.  The prefetch count is not validated: with a valid
    maximum message length and at most one of delegate and delegate class,
    construction succeeds and keeps whatever prefetch count it was given. *)
Theorem negative_max_message_length_rejected :
  forall (W : Type) host username password
         (delegate_class : option (unit -> AsyncQueueConsumerDelegate W))
         (delegate : option (AsyncQueueConsumerDelegate W))
         virtual_host heartbeat prefetch max_len seconds lg,
    ((max_len < 0)%Z ->
     exists e,
       exn_class e = ValueError
       /\ __init__ host username password delegate_class delegate virtual_host
            heartbeat prefetch max_len seconds lg = Raise e)
    /\ ((0 <= max_len)%Z ->
        delegate = None \/ delegate_class = None ->
        exists q,
          __init__ host username password delegate_class delegate virtual_host
            heartbeat prefetch max_len seconds lg = Ok q
          /\ prefetch_count q = prefetch
          /\ max_message_length q = max_len
          /\ is_running q = true).
Proof.
  intros W h u p dc d vh hb pf ml sec lg. split.
  - apply init_rejects_negative_length.
  - intros Hpos Hone. unfold __init__.
    apply Z.ltb_ge in Hpos. rewrite Hpos.
    destruct Hone as [-> | ->]; [destruct dc | destruct d];
      eexists; repeat split.
Qed.

Lemma negative_max_message_length_rejected_witness :
  (-1 < 0)%Z
  /\ exists e,
       exn_class e = ValueError
       /\ @__init__ Scenario.script "localhost" "guest" "guest" None None "/"
            60 100 (-1) 1 None = Raise e.
Proof.
  split; [reflexivity|].
  exact (proj1 (negative_max_message_length_rejected Scenario.script
                  "localhost" "guest" "guest" None None "/" 60 100 (-1) 1 None)
           eq_refl).
Defined.

(** C8, as stated, fails: a negative prefetch count is accepted. *)
Lemma negative_prefetch_count_accepted :
  exists q,
    @__init__ Scenario.script "localhost" "guest" "guest" None None "/"
      60 (-1) 0 1 None = Ok q
    /\ prefetch_count q = (-1)%Z.
Proof. eexists. split; reflexivity. Qed.

(** C9.  [stop_consumer] on a client whose connection has no channel raises
    a [ConnectionError] and does nothing else.  The operation is not
    guarded: whatever the state, it makes no connection attempt, its only
    possible call being the channel's [basic_cancel]. *)
Theorem stop_consumer_needs_a_channel :
  forall (W : Type) (io : Collaborators W) (consumer_tag : string) (s : state W),
    (channel (connection (self s)) = None ->
     exists e,
       exn_class e = ConnectionError
       /\ stop_consumer io consumer_tag s = (Raise e, s))
    /\ (exists new,
          trace (snd (stop_consumer io consumer_tag s)) = trace s ++ new
          /\ existsb is_connect new = false).
Proof.
  intros W io consumer_tag s. split.
  - intros Hnone. unfold stop_consumer. rewrite Hnone.
    eexists. split; [|reflexivity]. reflexivity.
  - unfold stop_consumer.
    destruct (channel (connection (self s))) as [ch|].
    + exists [EvBasicCancel ch consumer_tag].
      destruct (perform _ _ s) as [r s'] eqn:Hp.
      apply perform_inv in Hp. destruct Hp as (Ht & _).
      simpl. rewrite Ht. auto.
    + exists []. simpl. rewrite List.app_nil_r. auto.
Qed.

Lemma stop_consumer_needs_a_channel_witness :
  channel (connection (self Scenario.stopped)) = None
  /\ exists e,
       exn_class e = ConnectionError
       /\ stop_consumer Scenario.io "ctag1" Scenario.stopped
          = (Raise e, Scenario.stopped).
Proof.
  split; [reflexivity|].
  exact (proj1 (stop_consumer_needs_a_channel _ Scenario.io "ctag1"%string
                  Scenario.stopped) eq_refl).
Defined.

(** ** The maximum message length *)

Section MaxMessageLength.

Context {W : Type} (io : Collaborators W).

Lemma ignores_ret {A : Type} (a : A) :
  ignores_max_message_length (@ret W A a).
Proof. intros m s. reflexivity. Qed.

Lemma ignores_raise {A : Type} (e : exn) :
  ignores_max_message_length (@raise W A e).
Proof. intros m s. reflexivity. Qed.

Lemma ignores_bindc {A B : Type} (c : coroutine W A) (k : A -> coroutine W B) :
  ignores_max_message_length c ->
  (forall a, ignores_max_message_length (k a)) ->
  ignores_max_message_length (bindc c k).
Proof.
  intros Hc Hk m s. unfold bindc. rewrite Hc. unfold carried at 1.
  destruct (c s) as [[a|e] s']; simpl; [apply Hk | reflexivity].
Qed.

Lemma ignores_perform {A : Type} (ev : result A -> event) (op : await W A) :
  ignores_max_message_length (perform ev op).
Proof.
  intros m s. unfold perform, carried, with_max_message_length, expose. simpl.
  destruct (op _ (world s)) as [[r x] w]. reflexivity.
Qed.

Lemma ignores_current_channel :
  ignores_max_message_length (@current_channel W).
Proof.
  intros m s. unfold current_channel, carried. simpl.
  destruct (channel (connection (self s))); reflexivity.
Qed.

Lemma ignores_ack_coro msg : ignores_max_message_length (ack_coro io msg).
Proof. apply ignores_perform. Qed.

Lemma ignores_reject_coro args : ignores_max_message_length (reject_coro io args).
Proof. destruct args as [msg requeue]. apply ignores_perform. Qed.

Lemma ignores_put_coro args : ignores_max_message_length (put_coro io args).
Proof.
  unfold put_coro.
  destruct (truthy (put_data args) && truthy (put_serialized_data args));
    [apply ignores_raise|].
  apply ignores_bindc.
  - destruct (truthy (put_data args)); [|apply ignores_ret].
    destruct (serialize (put_data args) false);
      [apply ignores_ret | apply ignores_raise].
  - intros serialized_data. apply ignores_bindc.
    + unfold coerce_to_bytes.
      destruct serialized_data; try apply ignores_raise; apply ignores_ret.
    + intros payload. apply ignores_bindc; [apply ignores_current_channel|].
      intros ch. apply ignores_perform.
Qed.

Lemma ignores_consume_coro args : ignores_max_message_length (consume_coro io args).
Proof.
  unfold consume_coro.
  apply ignores_bindc; [intros m s; reflexivity|]. intros hid.
  apply ignores_bindc; [apply ignores_perform|]. intros _.
  apply ignores_bindc; [apply ignores_current_channel|]. intros ch.
  apply ignores_bindc; [intros m s; reflexivity|]. intros prefetch.
  apply ignores_bindc; [apply ignores_perform|]. intros _.
  apply ignores_bindc; [apply ignores_current_channel|]. intros ch'.
  apply ignores_bindc; [apply ignores_perform|]. intros tag.
  apply ignores_bindc.
  { unfold getitem. destruct (lookup "consumer_tag" tag);
      [apply ignores_ret | apply ignores_raise]. }
  intros consumer_tag.
  apply ignores_bindc; [apply ignores_perform|]. intros _.
  apply ignores_bindc; [intros m s; reflexivity|]. intros _.
  apply ignores_ret.
Qed.

Lemma ignores_after_failure r e :
  ignores_max_message_length (after_failure io r e).
Proof.
  intros m s. unfold after_failure, sleep.
  change (seconds_between_conn_retry (self (with_max_message_length m s)))
    with (seconds_between_conn_retry (self s)).
  rewrite ignores_perform. unfold carried.
  destruct (perform _ _ s) as [[u|e'] s2]; cbn [fst snd]; [|reflexivity].
  unfold log_failure. simpl. destruct (logger (self s2)); reflexivity.
Qed.

Lemma wrapper_loop_ignores fuel :
  forall r m (s : state W),
    wrapper_loop io fuel r (with_max_message_length m s)
    = option_map (fun '(res, r', sg) => (res, r', with_max_message_length m sg))
        (wrapper_loop io fuel r s).
Proof.
  induction fuel as [|fuel IH]; intros r m s.
  - simpl. change (must_connect (with_max_message_length m s)) with (must_connect s).
    destruct (must_connect s); reflexivity.
  - rewrite !wrapper_loop_unfold.
    change (must_connect (with_max_message_length m s)) with (must_connect s).
    destruct (must_connect s); [|reflexivity].
    unfold connect_attempt. rewrite ignores_perform.
    destruct (perform EvConnect (_connect io) s) as [[u|e] s1];
      unfold carried; cbn [fst snd option_map]; [reflexivity|].
    destruct (isinstance_Exception e); [|reflexivity].
    rewrite ignores_after_failure. unfold carried.
    destruct (after_failure io r e s1) as [[r1|e'] s3];
      cbn [fst snd option_map]; [apply IH | reflexivity].
Qed.

Lemma ensure_connected_ignores {A R : Type} (coro : A -> coroutine W R) :
  (forall a, ignores_max_message_length (coro a)) ->
  forall fuel a m s,
    _ensure_connected io coro fuel a (with_max_message_length m s)
    = option_map (carried m) (_ensure_connected io coro fuel a s).
Proof.
  intros Hc fuel a m s. unfold _ensure_connected.
  rewrite wrapper_loop_ignores.
  destruct (wrapper_loop io fuel 0 s) as [[[[u|e] r'] sg]|]; simpl;
    [rewrite Hc|..]; reflexivity.
Qed.

End MaxMessageLength.

(** C10.  The maximum message length is checked once, by [__init__], which
    rejects a negative value; afterwards no operation of the client reads
    it: [put], [consume], [ack], [reject], [stop_consumer] and
    [handle_message] make the same calls and give the same outcome whatever
    its value.  In particular [put] publishes a payload whole, however long
    it is. *)
Theorem max_message_length_is_never_consulted :
  forall (W : Type) (io : Collaborators W),
    (forall host username password delegate_class delegate virtual_host
            heartbeat prefetch max_len seconds lg,
        (max_len < 0)%Z ->
        exists e,
          exn_class e = ValueError
          /\ @__init__ W host username password delegate_class delegate
               virtual_host heartbeat prefetch max_len seconds lg = Raise e)
    /\ (forall (m : Z) (fuel : nat) (s : state W),
          (forall a, put io fuel a (with_max_message_length m s)
                     = option_map (carried m) (put io fuel a s))
          /\ (forall a, consume io fuel a (with_max_message_length m s)
                        = option_map (carried m) (consume io fuel a s))
          /\ (forall a, ack io fuel a (with_max_message_length m s)
                        = option_map (carried m) (ack io fuel a s))
          /\ (forall a, reject io fuel a (with_max_message_length m s)
                        = option_map (carried m) (reject io fuel a s))
          /\ (forall tag, stop_consumer io tag (with_max_message_length m s)
                          = carried m (stop_consumer io tag s))
          /\ (forall h ch body envelope properties loop,
                handle_message h ch body envelope properties loop
                  (with_max_message_length m s)
                = (fst (fst (handle_message h ch body envelope properties loop s)),
                   with_max_message_length m
                     (snd (fst (handle_message h ch body envelope properties loop s))),
                   snd (handle_message h ch body envelope properties loop s))))
    /\ (forall (m : Z) (fuel : nat) (s : state W) (ch : Channel)
               (payload : bytes) (routing_key exchange : string),
          must_connect s = false ->
          channel (connection (self s)) = Some ch ->
          exists r s',
            put io fuel
              {| put_routing_key := routing_key; put_data := PyNone;
                 put_serialized_data := PyBytes payload;
                 put_exchange := exchange |}
              (with_max_message_length m s) = Some (r, s')
            /\ trace s' = trace s ++ [EvPublish ch payload exchange routing_key]).
Proof.
  intros W io. split; [|split].
  - intros. apply init_rejects_negative_length. assumption.
  - intros m fuel s. repeat split.
    + intros a. apply ensure_connected_ignores. apply ignores_put_coro.
    + intros a. apply ensure_connected_ignores. apply ignores_consume_coro.
    + intros a. apply ensure_connected_ignores. apply ignores_ack_coro.
    + intros a. apply ensure_connected_ignores. apply ignores_reject_coro.
    + intros tag. unfold stop_consumer.
      change (channel (connection (self (with_max_message_length m s))))
        with (channel (connection (self s))).
      destruct (channel (connection (self s))); [apply ignores_perform|].
      reflexivity.
  - intros m fuel s ch payload routing_key exchange Hm Hch.
    unfold put, _ensure_connected.
    rewrite wrapper_loop_exit by exact Hm.
    unfold put_coro. simpl. unfold bindc, ret, coerce_to_bytes, current_channel.
    simpl. rewrite Hch.
    destruct (perform _ _ (with_max_message_length m s)) as [r s'] eqn:Hp.
    exists r, s'. split; [reflexivity|].
    apply perform_inv in Hp. destruct Hp as (Ht & _). exact Ht.
Qed.

Lemma max_message_length_is_never_consulted_witness :
  must_connect Scenario.online = false
  /\ channel (connection (self Scenario.online)) = Some 7%nat
  /\ exists r s',
       put Scenario.io 0
         (Scenario.payload_only [Byte.x68; Byte.x65; Byte.x6c; Byte.x6c; Byte.x6f])
         (with_max_message_length 1 Scenario.online) = Some (r, s')
       /\ trace s'
          = [EvPublish 7%nat [Byte.x68; Byte.x65; Byte.x6c; Byte.x6c; Byte.x6f]
               "" "orders"].
Proof.
  split; [reflexivity|]. split; [reflexivity|].
  exact (proj2 (proj2 (max_message_length_is_never_consulted _ Scenario.io))
           1%Z 0%nat Scenario.online 7%nat
           [Byte.x68; Byte.x65; Byte.x6c; Byte.x6c; Byte.x6f]
           "orders"%string ""%string eq_refl eq_refl).
Defined.

(** ** The codec *)

Section Codec.

Local Open Scope string_scope.

Lemma append_nil_r (s : string) : s ++ "" = s.
Proof. induction s as [|c s IH]; simpl; [|rewrite IH]; reflexivity. Qed.

Lemma append_assoc (s1 s2 s3 : string) : (s1 ++ s2) ++ s3 = s1 ++ (s2 ++ s3).
Proof. induction s1 as [|c s1 IH]; simpl; [|rewrite IH]; reflexivity. Qed.

Lemma length_append (s1 s2 : string) :
  String.length (s1 ++ s2) = (String.length s1 + String.length s2)%nat.
Proof. induction s1 as [|c s1 IH]; simpl; [|rewrite IH]; reflexivity. Qed.

(** *** UTF-8 *)

Lemma utf8_decode_encode_char (c : ascii) (rest : bytes) :
  Utf8.decode (Utf8.encode_char c ++ rest)%list
  = option_map (String c) (Utf8.decode rest).
Proof.
  destruct c as [[] [] [] [] [] [] [] []]; reflexivity.
Qed.

Lemma utf8_decode_encode (s : string) : Utf8.decode (Utf8.encode s) = Some s.
Proof.
  induction s as [|c s IH]; [reflexivity|].
  simpl. rewrite utf8_decode_encode_char, IH. reflexivity.
Qed.

(** *** Strings *)

Lemma scanstring_escape_char (ensure_ascii : bool) (c : ascii) (tail : string) :
  Json.scanstring (Json.escape_char ensure_ascii c ++ tail)
  = match Json.scanstring tail with
    | Some (content, rest) => Some (String c content, rest)
    | None => None
    end.
Proof.
  destruct ensure_ascii; destruct c as [[] [] [] [] [] [] [] []]; reflexivity.
Qed.

Lemma scanstring_escape (ensure_ascii : bool) (s rest : string) :
  Json.scanstring (Json.escape ensure_ascii s ++ Json.quotation_mark ++ rest)
  = Some (s, rest).
Proof.
  induction s as [|c s IH]; [reflexivity|].
  change (Json.escape ensure_ascii (String c s))
    with (Json.escape_char ensure_ascii c ++ Json.escape ensure_ascii s).
  rewrite append_assoc, scanstring_escape_char, IH. reflexivity.
Qed.

(** *** Integers *)

Lemma read_uint_string_of_uint (d : Decimal.uint) (rest : string) :
  ends_number rest ->
  Json.read_uint (Json.string_of_uint d ++ rest) = (d, rest).
Proof.
  intros Hrest. induction d; simpl; try (rewrite IHd; reflexivity).
  destruct rest as [|c rest]; [reflexivity|].
  simpl in *. rewrite Hrest. reflexivity.
Qed.

Lemma nzhead_not_D0 (d d' : Decimal.uint) : Decimal.nzhead d <> Decimal.D0 d'.
Proof. induction d; simpl; try discriminate. exact IHd. Qed.

Lemma to_uint_head (p : positive) :
  match Pos.to_uint p with
  | Decimal.Nil | Decimal.D0 _ => False
  | _ => True
  end.
Proof.
  assert (Hnorm : Decimal.unorm (Pos.to_uint p) = Pos.to_uint p).
  { rewrite <- (DecimalPos.Unsigned.to_of (Pos.to_uint p)).
    rewrite DecimalPos.Unsigned.of_to. reflexivity. }
  pose proof (DecimalPos.Unsigned.to_uint_nonnil p) as Hnil.
  pose proof (DecimalPos.Unsigned.to_uint_nonzero p) as Hzero.
  destruct (Pos.to_uint p) as [|d| | | | | | | | |] eqn:Hd; auto.
  unfold Decimal.unorm in Hnorm. simpl in Hnorm.
  destruct (Decimal.nzhead d) eqn:Hnz; try discriminate Hnorm.
  - apply Hzero. inversion Hnorm. reflexivity.
  - exact (nzhead_not_D0 _ _ Hnz).
Qed.

Lemma read_integer_to_uint (p : positive) (rest : string) :
  ends_number rest ->
  Json.read_integer (Json.string_of_uint (Pos.to_uint p) ++ rest)
  = Some (Pos.to_uint p, rest).
Proof.
  intros Hrest. pose proof (to_uint_head p) as Hhead.
  unfold Json.read_integer.
  destruct (Pos.to_uint p) as [|d|d|d|d|d|d|d|d|d|d] eqn:Hd; try contradiction;
    simpl; rewrite (read_uint_string_of_uint d rest Hrest); reflexivity.
Qed.

Lemma scan_number_repr_int (z : Z) (rest : string) :
  ends_number rest ->
  Json.scan_number (Json.repr_int z ++ rest) = Some (PyInt z, rest).
Proof.
  intros Hrest. unfold Json.repr_int.
  destruct z as [|p|p]; simpl Z.to_int.
  - reflexivity.
  - pose proof (to_uint_head p) as Hhead.
    pose proof (read_integer_to_uint p rest Hrest) as Hread.
    pose proof (DecimalZ.of_to (Zpos p)) as Hz. unfold Z.to_int in Hz.
    unfold Json.scan_number.
    destruct (Pos.to_uint p) as [|d|d|d|d|d|d|d|d|d|d] eqn:Hd; try contradiction;
      cbn [Json.string_of_uint append] in *; rewrite Hread, Hz; reflexivity.
  - pose proof (read_integer_to_uint p rest Hrest) as Hread.
    pose proof (DecimalZ.of_to (Zneg p)) as Hz. unfold Z.to_int in Hz.
    unfold Json.scan_number. cbn [append]. rewrite Hread, Hz. reflexivity.
Qed.

Lemma starts_value_append (t rest : string) :
  starts_value t -> starts_value (t ++ rest).
Proof. destruct t; [contradiction|]. exact (fun H => H). Qed.

Lemma starts_value_length (t : string) : starts_value t -> (1 <= String.length t)%nat.
Proof. destruct t; [contradiction|]. simpl. lia. Qed.

Lemma skip_ws_value (s : string) : starts_value s -> Json.skip_ws s = s.
Proof.
  destruct s as [|c s]; [contradiction|]. simpl. unfold value_head.
  destruct (Json.is_ws c); [discriminate|reflexivity].
Qed.

Lemma string_of_uint_head (d : Decimal.uint) :
  d <> Decimal.Nil -> starts_value (Json.string_of_uint d).
Proof. destruct d; try congruence; reflexivity. Qed.

Lemma repr_int_head (z : Z) : starts_value (Json.repr_int z).
Proof.
  unfold Json.repr_int. destruct z as [|p|p]; simpl; try reflexivity.
  apply string_of_uint_head. apply DecimalPos.Unsigned.to_uint_nonnil.
Qed.

Lemma encode_head (ensure_ascii : bool) (v : pyval) (text : string) :
  Json.encode ensure_ascii v = Some text -> starts_value text.
Proof.
  destruct v as [|[]|z|s|b|l|l|items]; simpl; intros H;
    try (inversion H; subst; reflexivity); try discriminate.
  - inversion H; subst. apply repr_int_head.
  - destruct (Json.sequence _); inversion H; reflexivity.
  - destruct (Json.sequence _); inversion H; reflexivity.
  - destruct (Json.sequence _); inversion H; reflexivity.
Qed.

Lemma scan_array_unfold (fuel : nat) (acc : list pyval) (s : string) :
  Json.scan_array (S fuel) acc s
  = match Json.scan_once fuel s with
    | Some (v, rest) =>
        match Json.skip_ws rest with
        | String "]"%char rest' => Some (PyList (acc ++ [v])%list, rest')
        | String ","%char rest' =>
            Json.scan_array fuel (acc ++ [v])%list (Json.skip_ws rest')
        | _ => None
        end
    | None => None
    end.
Proof. reflexivity. Qed.

Lemma scan_object_unfold (fuel : nat) (acc : list (pyval * pyval)) (s : string) :
  Json.scan_object (S fuel) acc (String "034" s)
  = match Json.scanstring s with
    | Some (key, rest1) =>
        match Json.skip_ws rest1 with
        | String ":"%char rest2 =>
            match Json.scan_once fuel (Json.skip_ws rest2) with
            | Some (v, rest3) =>
                match Json.skip_ws rest3 with
                | String "}"%char rest4 =>
                    Some (PyDict (Json.dict_set key v acc), rest4)
                | String ","%char rest4 =>
                    Json.scan_object fuel (Json.dict_set key v acc)
                      (Json.skip_ws rest4)
                | _ => None
                end
            | None => None
            end
        | _ => None
        end
    | None => None
    end.
Proof. reflexivity. Qed.

Lemma scan_once_string (fuel : nat) (s : string) :
  Json.scan_once (S fuel) (String "034" s)
  = match Json.scanstring s with
    | Some (content, rest) => Some (PyStr content, rest)
    | None => None
    end.
Proof. reflexivity. Qed.

Lemma scan_once_array (fuel : nat) (s : string) :
  starts_value s ->
  Json.scan_once (S fuel) (String "[" s) = Json.scan_array fuel [] s.
Proof.
  destruct s as [|c s]; [contradiction|].
  destruct c as [[] [] [] [] [] [] [] []]; intros H;
    (discriminate H || reflexivity).
Qed.

Lemma scan_once_object (fuel : nat) (s : string) :
  Json.scan_once (S fuel) (String "{" (String "034" s))
  = Json.scan_object fuel [] (String "034" s).
Proof. reflexivity. Qed.

Lemma scan_once_number (fuel : nat) (z : Z) (rest : string) :
  Json.scan_once (S fuel) (Json.repr_int z ++ rest)
  = Json.scan_number (Json.repr_int z ++ rest).
Proof.
  unfold Json.repr_int. destruct z as [|p|p]; simpl Z.to_int.
  - reflexivity.
  - pose proof (DecimalPos.Unsigned.to_uint_nonnil p) as Hnil.
    destruct (Pos.to_uint p); try congruence; reflexivity.
  - reflexivity.
Qed.

Lemma sequence_cons {A : Type} (o : option A) (l : list (option A)) (r : list A) :
  Json.sequence (o :: l) = Some r ->
  exists a r', o = Some a /\ Json.sequence l = Some r' /\ r = a :: r'.
Proof.
  simpl. destruct o as [a|]; [|discriminate].
  destruct (Json.sequence l) as [r'|]; [|discriminate].
  intros H. inversion H. eauto.
Qed.

Lemma join_cons2 (t t2 : string) (ts : list string) :
  Json.join (t :: t2 :: ts) = t ++ ", " ++ Json.join (t2 :: ts).
Proof. reflexivity. Qed.

Lemma join_head (t : string) (ts : list string) :
  starts_value t -> starts_value (Json.join (t :: ts)).
Proof.
  intros H. destruct ts; [exact H|].
  rewrite join_cons2. apply starts_value_append. exact H.
Qed.

Lemma ends_number_delimiter (c : ascii) (s : string) :
  Json.digit_of c = None -> ends_number (String c s).
Proof. exact (fun H => H). Qed.

(** The elements of an array. *)
Lemma scan_array_join (ensure_ascii : bool) (l : list pyval) :
  Forall (round_trips ensure_ascii) l ->
  forall chunks,
    l <> [] ->
    Json.sequence (map (Json.encode ensure_ascii) l) = Some chunks ->
    forall acc fuel rest,
      (String.length (Json.join chunks) < fuel)%nat ->
      Json.scan_array fuel acc (Json.join chunks ++ String "]" rest)
      = Some (PyList (acc ++ l)%list, rest).
Proof.
  induction 1 as [|v l Hv Hl IH]; intros chunks Hne Hseq acc fuel rest Hfuel;
    [congruence|].
  simpl map in Hseq. apply sequence_cons in Hseq.
  destruct Hseq as (t & ts & Ht & Hts & ->).
  destruct fuel as [|fuel]; [lia|]. rewrite scan_array_unfold.
  destruct l as [|v2 l'].
  - simpl in Hts. inversion Hts; subst ts. simpl Json.join in *.
    rewrite (Hv t Ht fuel (String "]" rest)); [reflexivity | lia | reflexivity].
  - assert (Hts' := Hts). simpl map in Hts'. apply sequence_cons in Hts'.
    destruct Hts' as (t2 & ts2 & Ht2 & Hts2 & ->).
    rewrite join_cons2 in *. rewrite !length_append in Hfuel.
    change (String.length ", ") with 2%nat in Hfuel.
    rewrite !append_assoc.
    rewrite (Hv t Ht fuel); [| lia | reflexivity].
    cbn [append Json.skip_ws Json.is_ws].
    rewrite skip_ws_value
      by (apply starts_value_append, join_head, (encode_head _ _ _ Ht2)).
    rewrite (IH (t2 :: ts2)); [| congruence | exact Hts | lia].
    rewrite <- List.app_assoc. reflexivity.
Qed.

Lemma dict_set_fresh (k : string) (v : pyval) (acc : list (pyval * pyval)) :
  fresh_key k acc -> Json.dict_set k v acc = (acc ++ [(PyStr k, v)])%list.
Proof.
  induction 1 as [|[key val] acc (k' & Hk & Hne) Hacc IH]; [reflexivity|].
  simpl in Hk. subst key. simpl.
  destruct (String.eqb_spec k k') as [Heq|_]; [congruence|].
  rewrite IH. reflexivity.
Qed.

Lemma distinct_cons (k : string) (keys : list string) :
  Json.distinct (k :: keys) = true ->
  (forall k', In k' keys -> k' <> k) /\ Json.distinct keys = true.
Proof.
  simpl. intros H. apply andb_true_iff in H. destruct H as (Hk & Hd).
  split; [|exact Hd].
  intros k' Hin ->. apply negb_true_iff in Hk.
  assert (Hex : existsb (String.eqb k) keys = true).
  { apply existsb_exists. exists k. split; [exact Hin | apply String.eqb_refl]. }
  congruence.
Qed.

Lemma item_text_shape (ensure_ascii : bool) (k t rest : string) :
  (Json.encode_basestring ensure_ascii k ++ ": " ++ t) ++ rest
  = String "034" (Json.escape ensure_ascii k ++ Json.quotation_mark
                  ++ String ":" (String " " (t ++ rest))).
Proof.
  unfold Json.encode_basestring, Json.quotation_mark.
  cbn [append]. rewrite !append_assoc. reflexivity.
Qed.

Lemma item_text_head (ensure_ascii : bool) (kv : pyval * pyval) (chunk : string) :
  item_text ensure_ascii kv = Some chunk -> starts_value chunk.
Proof.
  unfold item_text.
  destruct (Json.key_text (fst kv)); [|discriminate].
  destruct (Json.encode ensure_ascii (snd kv)); [|discriminate].
  intros H. inversion H. reflexivity.
Qed.

(** The items of an object. *)
Lemma scan_object_join (ensure_ascii : bool) (items : list (pyval * pyval)) :
  Forall (fun kv => round_trips ensure_ascii (snd kv)) items ->
  forall keys chunks,
    items <> [] ->
    Json.sequence (map Json.key_string items) = Some keys ->
    Json.distinct keys = true ->
    Json.sequence (map (item_text ensure_ascii) items) = Some chunks ->
    forall acc fuel rest,
      (forall k, In k keys -> fresh_key k acc) ->
      (String.length (Json.join chunks) < fuel)%nat ->
      Json.scan_object fuel acc (Json.join chunks ++ String "}" rest)
      = Some (PyDict (acc ++ items)%list, rest).
Proof.
  induction 1 as [|[key v] items Hv Hitems IH];
    intros keys chunks Hne Hkeys Hdist Hseq acc fuel rest Hfresh Hfuel;
    [congruence|].
  simpl map in Hkeys. apply sequence_cons in Hkeys.
  destruct Hkeys as (k & keys' & Hk & Hkeys' & ->).
  unfold Json.key_string in Hk. simpl in Hk.
  destruct key; try discriminate. inversion Hk; subst s. clear Hk.
  simpl map in Hseq. apply sequence_cons in Hseq.
  destruct Hseq as (chunk & ts & Hchunk & Hts & ->).
  unfold item_text in Hchunk. cbn [fst snd Json.key_text] in Hchunk.
  destruct (Json.encode ensure_ascii v) as [t|] eqn:Ht; [|discriminate].
  assert (Hshape : Json.encode_basestring ensure_ascii k ++ ": " ++ t = chunk)
    by congruence.
  clear Hchunk. rename Hshape into Hchunk.
  assert (Hlen : (String.length t < String.length chunk)%nat).
  { rewrite <- Hchunk, !length_append. simpl. lia. }
  destruct (distinct_cons _ _ Hdist) as (Hother & Hdist').
  assert (Hset : Json.dict_set k v acc = (acc ++ [(PyStr k, v)])%list).
  { apply dict_set_fresh, Hfresh. left. reflexivity. }
  simpl in Hv.
  destruct fuel as [|fuel]; [lia|].
  destruct items as [|item2 items'].
  - simpl in Hts. inversion Hts; subst ts. simpl Json.join in *.
    rewrite <- Hchunk.
    rewrite item_text_shape, scan_object_unfold, scanstring_escape.
    cbn [Json.skip_ws Json.is_ws].
    rewrite skip_ws_value
      by (apply starts_value_append, (encode_head _ _ _ Ht)).
    rewrite (Hv t Ht fuel (String "}" rest)); [| lia | reflexivity].
    cbn [Json.skip_ws Json.is_ws]. rewrite Hset. reflexivity.
  - assert (Hts' := Hts). simpl map in Hts'. apply sequence_cons in Hts'.
    destruct Hts' as (t2 & ts2 & Ht2 & Hts2 & ->).
    rewrite join_cons2 in *. rewrite !length_append in Hfuel.
    change (String.length ", ") with 2%nat in Hfuel.
    rewrite (append_assoc _ (", " ++ Json.join (t2 :: ts2))).
    rewrite <- Hchunk.
    rewrite item_text_shape, scan_object_unfold, scanstring_escape.
    cbn [Json.skip_ws Json.is_ws].
    rewrite skip_ws_value
      by (apply starts_value_append, (encode_head _ _ _ Ht)).
    rewrite (Hv t Ht fuel); [| lia | reflexivity].
    rewrite append_assoc.
    cbn [append Json.skip_ws Json.is_ws].
    rewrite skip_ws_value
      by (apply starts_value_append, join_head, (item_text_head _ _ _ Ht2)).
    rewrite Hset.
    rewrite (IH keys' (t2 :: ts2)); [| congruence | exact Hkeys' | exact Hdist'
                                     | exact Hts | | lia].
    + rewrite <- List.app_assoc. reflexivity.
    + intros k' Hin. apply Forall_app. split.
      * apply Hfresh. right. exact Hin.
      * constructor; [|constructor]. exists k. split; [reflexivity|].
        intros ->. exact (Hother _ Hin eq_refl).
Qed.

Lemma sequence_map_total {A B : Type} (f : A -> option B) (l : list A) :
  Forall (fun a => exists b, f a = Some b) l ->
  exists r, Json.sequence (map f l) = Some r.
Proof.
  induction 1 as [|a l (b & Hb) Hl (r & Hr)]; [exists []; reflexivity|].
  exists (b :: r). simpl. rewrite Hb, Hr. reflexivity.
Qed.

Lemma map_item_text (ensure_ascii : bool) (items : list (pyval * pyval)) :
  map (fun kv =>
         match Json.key_text (fst kv), Json.encode ensure_ascii (snd kv) with
         | Some k, Some t =>
             Some (Json.encode_basestring ensure_ascii k ++ ": " ++ t)
         | _, _ => None
         end) items
  = map (item_text ensure_ascii) items.
Proof. reflexivity. Qed.

Lemma key_string_key_text (kv : pyval * pyval) (k : string) :
  Json.key_string kv = Some k -> Json.key_text (fst kv) = Some k.
Proof.
  unfold Json.key_string. destruct (fst kv); try discriminate.
  intros H. exact H.
Qed.

Lemma sequence_key_strings (items : list (pyval * pyval)) (keys : list string) :
  Json.sequence (map Json.key_string items) = Some keys ->
  Forall (fun kv => exists k, Json.key_text (fst kv) = Some k) items.
Proof.
  revert keys. induction items as [|kv items IH]; intros keys H; [constructor|].
  simpl map in H. apply sequence_cons in H.
  destruct H as (k & keys' & Hk & Hkeys & _).
  constructor; [|exact (IH _ Hkeys)].
  exists k. apply key_string_key_text. exact Hk.
Qed.

(** Every native value has a text, and scanning that text gives the value
    back. *)
Lemma encode_scan_once (ensure_ascii : bool) (v : pyval) :
  Json.json_native v = true ->
  (exists text, Json.encode ensure_ascii v = Some text)
  /\ round_trips ensure_ascii v.
Proof.
  induction v as [|b|z|s|b|l IH|l IH|items IH] using pyval_induction;
    intros Hnative; try discriminate Hnative.
  - split; [eexists; reflexivity|].
    intros text Ht fuel rest Hfuel _. inversion Ht; subst text.
    do 4 (destruct fuel as [|fuel]; [simpl in Hfuel; lia|]). reflexivity.
  - split; [destruct b; eexists; reflexivity|].
    intros text Ht fuel rest Hfuel _.
    destruct b; inversion Ht; subst text;
      do 4 (destruct fuel as [|fuel]; [simpl in Hfuel; lia|]); reflexivity.
  - split; [eexists; reflexivity|].
    intros text Ht fuel rest Hfuel Hrest. inversion Ht; subst text.
    pose proof (starts_value_length _ (repr_int_head z)) as Hlen.
    destruct fuel as [|fuel]; [lia|].
    rewrite scan_once_number. apply scan_number_repr_int. exact Hrest.
  - split; [eexists; reflexivity|].
    intros text Ht fuel rest Hfuel _. inversion Ht; subst text.
    destruct fuel as [|fuel]; [simpl in Hfuel; lia|].
    unfold Json.encode_basestring, Json.quotation_mark.
    cbn [append]. rewrite append_assoc, scan_once_string.
    change (String "034" rest) with (Json.quotation_mark ++ rest).
    rewrite scanstring_escape. reflexivity.
  - (* list *)
    simpl in Hnative. rewrite forallb_forall in Hnative.
    assert (Hall : Forall (fun v => (exists text, Json.encode ensure_ascii v = Some text)
                                    /\ round_trips ensure_ascii v) l).
    { apply Forall_forall. intros v Hin.
      rewrite Forall_forall in IH. apply (IH v Hin). apply Hnative. exact Hin. }
    assert (Htexts : Forall (fun v => exists text, Json.encode ensure_ascii v = Some text) l)
      by (eapply Forall_impl; [|exact Hall]; intros v H; apply H).
    assert (Hrt : Forall (round_trips ensure_ascii) l)
      by (eapply Forall_impl; [|exact Hall]; intros v H; apply H).
    destruct (sequence_map_total _ _ Htexts) as (chunks & Hchunks).
    split; [simpl; rewrite Hchunks; eexists; reflexivity|].
    intros text Ht fuel rest Hfuel _. simpl in Ht. rewrite Hchunks in Ht.
    cbn [option_map append] in Ht. injection Ht as <-.
    cbn [String.length] in Hfuel. rewrite length_append in Hfuel.
    cbn [String.length] in Hfuel.
    destruct fuel as [|fuel]; [lia|].
    cbn [append]. rewrite append_assoc. cbn [append].
    destruct l as [|v l'].
    + simpl in Hchunks. inversion Hchunks; subst chunks.
      destruct fuel; reflexivity.
    + assert (Hhead : starts_value (Json.join chunks)).
      { simpl map in Hchunks. apply sequence_cons in Hchunks.
        destruct Hchunks as (t & ts & Ht & _ & ->).
        apply join_head. exact (encode_head _ _ _ Ht). }
      rewrite scan_once_array by (apply starts_value_append; exact Hhead).
      rewrite (scan_array_join ensure_ascii _ Hrt chunks);
        [reflexivity | congruence | exact Hchunks | lia].
  - (* dict *)
    simpl in Hnative. apply andb_true_iff in Hnative.
    destruct Hnative as (Hvalues & Hkeys).
    destruct (Json.sequence (map Json.key_string items)) as [keys|] eqn:Hks;
      [|discriminate].
    rewrite forallb_forall in Hvalues.
    assert (Hall : Forall (fun kv => (exists text, Json.encode ensure_ascii (snd kv) = Some text)
                                     /\ round_trips ensure_ascii (snd kv)) items).
    { apply Forall_forall. intros kv Hin.
      rewrite Forall_forall in IH. apply (IH kv Hin). apply Hvalues. exact Hin. }
    assert (Hrt : Forall (fun kv => round_trips ensure_ascii (snd kv)) items)
      by (eapply Forall_impl; [|exact Hall]; intros kv H; apply H).
    assert (Htexts : Forall (fun kv => exists chunk, item_text ensure_ascii kv = Some chunk) items).
    { pose proof (sequence_key_strings _ _ Hks) as Hk.
      apply Forall_forall. intros kv Hin.
      rewrite Forall_forall in Hk, Hall.
      destruct (Hk kv Hin) as (k & Hkk).
      destruct (Hall kv Hin) as ((t & Ht) & _).
      unfold item_text. rewrite Hkk, Ht. eexists. reflexivity. }
    destruct (sequence_map_total _ _ Htexts) as (chunks & Hchunks).
    split; [simpl; rewrite map_item_text, Hchunks; eexists; reflexivity|].
    intros text Ht fuel rest Hfuel _. simpl in Ht.
    rewrite map_item_text, Hchunks in Ht.
    cbn [option_map append] in Ht. injection Ht as <-.
    cbn [String.length] in Hfuel. rewrite length_append in Hfuel.
    cbn [String.length] in Hfuel.
    destruct fuel as [|fuel]; [lia|].
    cbn [append]. rewrite append_assoc. cbn [append].
    destruct items as [|[key v] items'].
    + simpl in Hchunks. inversion Hchunks; subst chunks.
      destruct fuel; reflexivity.
    + assert (Hquote : exists tail, Json.join chunks = String "034" tail).
      { simpl map in Hchunks. apply sequence_cons in Hchunks.
        destruct Hchunks as (t & ts & Ht & _ & ->).
        unfold item_text in Ht.
        destruct (Json.key_text (fst (key, v))); [|discriminate].
        destruct (Json.encode ensure_ascii (snd (key, v))); [|discriminate].
        inversion Ht. destruct ts; eexists; reflexivity. }
      destruct Hquote as (tail & Hquote).
      assert (Hgoal : Json.scan_object fuel [] (Json.join chunks ++ String "}" rest)
                      = Some (PyDict ([] ++ (key, v) :: items')%list, rest)).
      { apply (scan_object_join ensure_ascii _ Hrt keys chunks);
          [congruence | exact Hks | exact Hkeys | exact Hchunks
          | intros; constructor | lia]. }
      rewrite Hquote in *. cbn [append] in *.
      rewrite scan_once_object. exact Hgoal.
Qed.

Lemma decode_encode (ensure_ascii : bool) (v : pyval) (text : string) :
  Json.json_native v = true ->
  Json.encode ensure_ascii v = Some text ->
  Json.decode text = Some v.
Proof.
  intros Hnative Ht. unfold Json.decode.
  rewrite skip_ws_value by exact (encode_head _ _ _ Ht).
  destruct (encode_scan_once ensure_ascii v Hnative) as (_ & Hrt).
  pose proof (Hrt text Ht (S (String.length text)) "") as H.
  rewrite append_nil_r in H. rewrite H; [reflexivity | lia | exact I].
Qed.


End Codec.



(** * Further properties *)

(** ** The retry loop *)

Lemma sleeps_app t1 t2 : sleeps (t1 ++ t2) = sleeps t1 ++ sleeps t2.
Proof.
  induction t1 as [|ev t1 IH]; [reflexivity|].
  destruct ev; simpl; try exact IH. f_equal. exact IH.
Qed.

Lemma sleeps_retry_events seconds lg r es :
  sleeps (retry_events seconds lg r es) = repeat seconds (List.length es).
Proof.
  revert r. induction es as [|e es IH]; intros r; [reflexivity|].
  simpl. f_equal. destruct lg; simpl; apply IH.
Qed.

Lemma reports_retry_events_silent seconds r es :
  reports (retry_events seconds None r es) = [].
Proof.
  revert r. induction es as [|e es IH]; intros r; [reflexivity|].
  simpl. apply IH.
Qed.



(** X11.  An exception of a connection attempt that is not an [Exception]
    (a cancellation, a keyboard interrupt) is not retried: it ends the call
    at once, with no sleep and no report after it, and the wrapped
    operation is not invoked. *)
Theorem guard_propagates_what_it_does_not_catch :
  forall (W : Type) (io : Collaborators W) (A R : Type)
         (coro : A -> coroutine W R) (args : A)
         (s : state W) (es : list exn) (n : Z) (s' s1 : state W) (e : exn),
    failing_run io 0 s es n s' ->
    must_connect s' = true ->
    connect_attempt io s' = (Raise e, s1) ->
    isinstance_Exception e = false ->
    trace s1 = trace s
               ++ retry_events (seconds_between_conn_retry (self s))
                    (logger (self s)) 0 es
               ++ [EvConnect (Raise e)]
    /\ forall fuel, (List.length es < fuel)%nat ->
         _ensure_connected io coro fuel args s = Some (Raise e, s1).
Proof.
  intros W io A R coro args s es n s' s1 e Hrun Hm Ha He.
  destruct (failing_run_inv io _ _ _ _ _ Hrun) as (Ht & _).
  split.
  - destruct (connect_attempt_inv io _ _ _ Ha) as (Ht1 & _).
    rewrite Ht1, Ht, List.app_assoc. reflexivity.
  - intros fuel Hlt. unfold _ensure_connected.
    replace fuel with (List.length es + S (fuel - S (List.length es)))%nat by lia.
    rewrite (wrapper_loop_run io _ _ _ _ _ Hrun).
    rewrite (wrapper_loop_propagates io _ _ _ _ _ Hm Ha He). reflexivity.
Qed.

Lemma guard_propagates_what_it_does_not_catch_witness :
  failing_run Scenario.io 0 Outage.cancelled_while_connecting
    [Scenario.timeout] 1 Outage.after_timeout
  /\ isinstance_Exception Outage.cancelled = false
  /\ put Scenario.io 2 (Scenario.payload_only [Byte.x61])
       Outage.cancelled_while_connecting
     = Some (Raise Outage.cancelled, Outage.at_cancellation)
  /\ existsb is_publish (trace Outage.at_cancellation) = false.
Proof.
  assert (Hrun : failing_run Scenario.io 0 Outage.cancelled_while_connecting
                   [Scenario.timeout] 1 Outage.after_timeout).
  { eapply failing_run_cons; [reflexivity | reflexivity | reflexivity | reflexivity | ].
    apply failing_run_nil. }
  split; [exact Hrun|]. split; [reflexivity|]. split; [|reflexivity].
  destruct (guard_propagates_what_it_does_not_catch _ Scenario.io _ _
              (put_coro Scenario.io) (Scenario.payload_only [Byte.x61])
              Outage.cancelled_while_connecting _ _ Outage.after_timeout
              Outage.at_cancellation Outage.cancelled
              Hrun eq_refl eq_refl eq_refl) as (_ & Hfuel).
  apply Hfuel. simpl. lia.
Defined.

(** X13.  The guard never gives up: as long as the client is running, not
    connected, every attempt fails with an [Exception] and every sleep
    returns, the call does not return, however many attempts are allowed.
    [keeps_failing] is an invariant of such a world. *)
Theorem guard_never_gives_up :
  forall (W : Type) (io : Collaborators W) (keeps_failing : state W -> Prop),
    (forall s,
        keeps_failing s ->
        must_connect s = true
        /\ exists e s1,
             connect_attempt io s = (Raise e, s1)
             /\ isinstance_Exception e = true
             /\ forall r, exists r1 s3,
                  after_failure io r e s1 = (Ok r1, s3) /\ keeps_failing s3) ->
    forall (A R : Type) (coro : A -> coroutine W R) (args : A)
           (s : state W) (fuel : nat),
      keeps_failing s ->
      _ensure_connected io coro fuel args s = None.
Proof.
  intros W io keeps_failing Hinv A R coro args s fuel Hs.
  assert (Hloop : forall fuel r s, keeps_failing s -> wrapper_loop io fuel r s = None).
  { clear s fuel Hs. induction fuel as [|fuel IH]; intros r s Hs;
      destruct (Hinv s Hs) as (Hm & e & s1 & Ha & He & Hnext).
    - simpl. rewrite Hm. reflexivity.
    - destruct (Hnext r) as (r1 & s3 & Haf & Hs3).
      rewrite wrapper_loop_unfold, Hm, Ha, He, Haf. apply IH, Hs3. }
  unfold _ensure_connected. rewrite (Hloop fuel 0%Z s Hs). reflexivity.
Qed.

Lemma outage_keeps_failing (s : state Scenario.script) :
  Outage.down s ->
  must_connect s = true
  /\ exists e s1,
       connect_attempt Outage.io s = (Raise e, s1)
       /\ isinstance_Exception e = true
       /\ forall r, exists r1 s3,
            after_failure Outage.io r e s1 = (Ok r1, s3) /\ Outage.down s3.
Proof.
  intros (Hrun & Hconn & Hstop).
  split; [unfold must_connect; rewrite Hrun, Hconn; reflexivity|].
  eexists. eexists. split; [reflexivity|]. split; [reflexivity|].
  intros r. unfold after_failure, sleep, perform, log_failure.
  simpl. unfold Scenario.sleep_. simpl. rewrite Hstop.
  eexists. eexists. split; [reflexivity|].
  unfold Outage.down. simpl.
  destruct (logger (self s)); simpl; auto.
Defined.

Lemma guard_never_gives_up_witness :
  Outage.down Scenario.first_time
  /\ put Outage.io 1000 (Scenario.payload_only [Byte.x61]) Scenario.first_time
     = None.
Proof.
  split; [repeat split|].
  apply (guard_never_gives_up _ Outage.io Outage.down outage_keeps_failing).
  repeat split.
Defined.

(** ** Construction *)

(** X9.  [__init__] refuses a delegate together with a delegate class,
    whatever the other arguments are (the check comes before the one of the
    maximum message length); given a delegate class alone it keeps an
    instance of that class, and otherwise the delegate it was given. *)
Theorem init_selects_the_delegate :
  forall (W : Type) host username password
         (delegate_class : option (unit -> AsyncQueueConsumerDelegate W))
         (given : option (AsyncQueueConsumerDelegate W))
         virtual_host heartbeat prefetch max_len seconds lg,
    (given <> None ->
     delegate_class <> None ->
     __init__ host username password delegate_class given virtual_host
       heartbeat prefetch max_len seconds lg
     = Raise (new_exn ValueError "Cant provide both delegate and delegate_class"))
    /\ ((0 <= max_len)%Z ->
        given = None \/ delegate_class = None ->
        exists q,
          __init__ host username password delegate_class given virtual_host
            heartbeat prefetch max_len seconds lg = Ok q
          /\ delegate q
             = match delegate_class with
               | Some cls => Some (cls tt)
               | None => given
               end
          /\ seconds_between_conn_retry q = seconds
          /\ logger q = lg).
Proof.
  intros W h u p dc d vh hb pf ml sec lg. split.
  - intros Hd Hdc. unfold __init__.
    destruct d; [|congruence]. destruct dc; [|congruence]. reflexivity.
  - intros Hpos Hone. unfold __init__.
    apply Z.ltb_ge in Hpos. rewrite Hpos.
    destruct Hone as [-> | ->]; [destruct dc | destruct d];
      eexists; repeat split.
Qed.

Lemma init_selects_the_delegate_witness :
  Some Scenario.quiet <> None
  /\ Some (fun _ : unit => Scenario.quiet) <> None
  /\ __init__ "localhost" "guest" "guest" (Some (fun _ : unit => Scenario.quiet))
       (Some Scenario.quiet) "/" 60 100 (-1) 1 None
     = Raise (new_exn ValueError "Cant provide both delegate and delegate_class").
Proof.
  split; [discriminate|]. split; [discriminate|].
  apply (proj1 (init_selects_the_delegate Scenario.script
                  "localhost" "guest" "guest"
                  (Some (fun _ : unit => Scenario.quiet)) (Some Scenario.quiet)
                  "/" 60 100 (-1) 1 None)); discriminate.
Defined.

(** X10.  A client that has just been built is running and not connected:
    the first guarded operation on it attempts a connection before
    anything else, whatever the operation is. *)
Theorem new_client_connects_first :
  forall (W : Type) (io : Collaborators W) host username password
         (delegate_class : option (unit -> AsyncQueueConsumerDelegate W))
         (delegate : option (AsyncQueueConsumerDelegate W))
         virtual_host heartbeat prefetch max_len seconds lg
         (q : AsyncJsonQueue W) (w : W),
    __init__ host username password delegate_class delegate virtual_host
      heartbeat prefetch max_len seconds lg = Ok q ->
    must_connect (fresh q w) = true
    /\ (forall fuel res n sg,
          wrapper_loop io fuel 0 (fresh q w) = Some (res, n, sg) ->
          exists outcome rest, trace sg = EvConnect outcome :: rest)
    /\ (forall (A R : Type) (coro : A -> coroutine W R) (args : A) (s1 : state W),
          connect_attempt io (fresh q w) = (Ok tt, s1) ->
          trace s1 = [EvConnect (Ok tt)]
          /\ forall fuel,
               _ensure_connected io coro (S fuel) args (fresh q w)
               = Some (coro args s1)).
Proof.
  intros W io h u p dc d vh hb pf ml sec lg q w Hinit.
  assert (Hmust : must_connect (fresh q w) = true).
  { unfold __init__ in Hinit.
    destruct d, dc; try discriminate;
      destruct (ml <? 0)%Z; try discriminate;
      inversion Hinit; subst; reflexivity. }
  split; [exact Hmust|]. split.
  - intros fuel res n sg Hloop.
    exact (wrapper_loop_attempts_first io _ _ _ _ _ _ Hmust Hloop).
  - intros A R coro args s1 Ha. split.
    + apply (connect_attempt_inv io _ _ _ Ha).
    + intros fuel. unfold _ensure_connected.
      rewrite (wrapper_loop_break io _ _ _ _ Hmust Ha). reflexivity.
Qed.

Lemma new_client_connects_first_witness :
  exists q,
    __init__ "localhost" "guest" "guest" None (Some Scenario.quiet) "/"
      60 100 0 1 None = Ok q
    /\ forall w fuel res n sg,
         wrapper_loop Scenario.io fuel 0 (fresh q w) = Some (res, n, sg) ->
         exists outcome rest, trace sg = EvConnect outcome :: rest.
Proof.
  eexists. split; [reflexivity|].
  intros w.
  exact (proj1 (proj2 (new_client_connects_first _ Scenario.io
                         "localhost" "guest" "guest" None (Some Scenario.quiet)
                         "/" 60 100 0 1 None _ w eq_refl))).
Defined.

(** ** Deliveries *)

Lemma expose_absorb {W : Type} (x : exposed) (q : AsyncJsonQueue W) :
  expose (absorb x q) = x.
Proof. destruct x. reflexivity. Qed.

(** Whatever the message handler does, the task of a delivery calls it
    once, first, and calls the error hook at most once after it. *)
Lemma delivery_task_events {W : Type} (h : _ConsumptionHandler W)
  (msg : AMQPMessage) (s : state W) :
  exists rest,
    trace (snd (run_task (delivery_task h msg) s))
    = trace s ++ EvOnQueueMessage msg :: rest
    /\ delivery_events msg rest.
Proof.
  unfold run_task, delivery_task, _handle_callback, try_except_Exception,
    call_on_queue_message. simpl.
  destruct (perform _ (on_queue_message (handler_delegate h) msg) s)
    as [[v|e] s1] eqn:Hp;
    apply perform_inv in Hp; destruct Hp as (Ht & _).
  - exists []. split; [exact Ht | left; reflexivity].
  - destruct (isinstance_Exception e) eqn:He.
    + unfold call_on_message_handle_error. simpl.
      destruct (perform _ (on_message_handle_error (handler_delegate h) e
                             [("msg"%string, msg)]) s1) as [r s2] eqn:Hp2.
      apply perform_inv in Hp2. destruct Hp2 as (Ht2 & _).
      exists [EvOnMessageHandleError e [("msg"%string, msg)]].
      split; [simpl; rewrite Ht2, Ht, <- List.app_assoc; reflexivity|].
      right. exists e. auto.
    + exists []. split; [exact Ht | left; reflexivity].
Qed.

(** X16.  Deliveries are independent.  [handle_message] only schedules:
    two deliveries leave two tasks in the event loop, in the order of the
    deliveries, and run no delegate code.  When the tasks run, each calls
    [on_queue_message] once with its own message, whatever the task before
    it did: a handler that failed on the first message does not keep the
    second from being handled. *)
Theorem deliveries_are_independent :
  forall (W : Type) (h : _ConsumptionHandler W) (ch : Channel)
         (body1 body2 : bytes) (envelope1 envelope2 : Envelope)
         (properties1 properties2 : Properties)
         (loop : event_loop W) (s : state W),
    let msg1 := delivery_message h ch body1 envelope1 properties1 in
    let msg2 := delivery_message h ch body2 envelope2 properties2 in
    handle_message h ch body1 envelope1 properties1 loop s
    = (Ok (delivery_task h msg1), s, loop ++ [delivery_task h msg1])
    /\ handle_message h ch body2 envelope2 properties2
         (loop ++ [delivery_task h msg1]) s
       = (Ok (delivery_task h msg2), s,
          loop ++ [delivery_task h msg1; delivery_task h msg2])
    /\ forall s1,
         exists rest1 rest2,
           trace (snd (run_task (delivery_task h msg2)
                         (snd (run_task (delivery_task h msg1) s1))))
           = trace s1 ++ (EvOnQueueMessage msg1 :: rest1)
                      ++ (EvOnQueueMessage msg2 :: rest2)
           /\ delivery_events msg1 rest1
           /\ delivery_events msg2 rest2.
Proof.
  intros W h ch body1 body2 envelope1 envelope2 properties1 properties2 loop s
    msg1 msg2.
  split; [reflexivity|]. split.
  - unfold handle_message, create_task. rewrite <- List.app_assoc. reflexivity.
  - intros s1.
    destruct (delivery_task_events h msg1 s1) as (rest1 & Ht1 & Hr1).
    destruct (delivery_task_events h msg2
                (snd (run_task (delivery_task h msg1) s1)))
      as (rest2 & Ht2 & Hr2).
    exists rest1, rest2. split; [|split; assumption].
    rewrite Ht2, Ht1, <- List.app_assoc. reflexivity.
Qed.

(** X14.  The error hook is for [Exception]s only: when the message handler
    returns, or raises what [except Exception] does not catch, the task of
    the delivery ends with that outcome and [on_message_handle_error] is
    not called. *)
Theorem error_hook_only_for_exceptions :
  forall (W : Type) (h : _ConsumptionHandler W) (msg : AMQPMessage)
         (s : state W) (r : result pyval) (x1 : exposed) (w1 : W),
    on_queue_message (handler_delegate h) msg (expose (self s)) (world s)
    = (r, x1, w1) ->
    match r with
    | Ok _ => True
    | Raise e => isinstance_Exception e = false
    end ->
    run_task (delivery_task h msg) s
    = (r, {| self := absorb x1 (self s);
             handlers := handlers s;
             world := w1;
             trace := trace s ++ [EvOnQueueMessage msg] |}).
Proof.
  intros W h msg s r x1 w1 Hcall Hr.
  unfold run_task, delivery_task, _handle_callback, try_except_Exception,
    call_on_queue_message, perform. simpl.
  rewrite Hcall. destruct r as [v|e]; [reflexivity|].
  rewrite Hr. reflexivity.
Qed.

Lemma error_hook_only_for_exceptions_witness :
  isinstance_Exception Outage.cancelled = false
  /\ fst (run_task (delivery_task (Scenario.handler (Scenario.failing Outage.cancelled))
                      Outage.stale_message) Scenario.online)
     = Raise Outage.cancelled
  /\ existsb is_handle_error
       (trace (snd (run_task (delivery_task
                                (Scenario.handler (Scenario.failing Outage.cancelled))
                                Outage.stale_message) Scenario.online)))
     = false.
Proof.
  split; [reflexivity|].
  rewrite (error_hook_only_for_exceptions _
             (Scenario.handler (Scenario.failing Outage.cancelled))
             Outage.stale_message Scenario.online (Raise Outage.cancelled)
             (expose (self Scenario.online)) (world Scenario.online)
             eq_refl eq_refl).
  split; reflexivity.
Defined.

(** X15.  A delegate that keeps the error hook of the base class swallows
    the failures of its message handler: when [on_queue_message] raises an
    [Exception], the task of the delivery still ends normally, with
    [None], and the connection and the world are as the handler left
    them. *)
Theorem default_error_hook_swallows :
  forall (W : Type) (h : _ConsumptionHandler W) (msg : AMQPMessage)
         (s : state W) (e : exn) (x1 : exposed) (w1 : W),
    on_message_handle_error (handler_delegate h) = (fun _ _ => pass) ->
    on_queue_message (handler_delegate h) msg (expose (self s)) (world s)
    = (Raise e, x1, w1) ->
    isinstance_Exception e = true ->
    run_task (delivery_task h msg) s
    = (Ok PyNone,
       {| self := absorb x1 (self s);
          handlers := handlers s;
          world := w1;
          trace := trace s ++ [EvOnQueueMessage msg;
                               EvOnMessageHandleError e [("msg"%string, msg)]] |}).
Proof.
  intros W h msg s e x1 w1 Hhook Hcall He.
  unfold run_task, delivery_task, _handle_callback, try_except_Exception,
    call_on_queue_message, perform. simpl.
  rewrite Hcall, He.
  unfold call_on_message_handle_error, perform. simpl.
  rewrite Hhook. unfold pass. simpl.
  rewrite <- List.app_assoc. destruct x1. reflexivity.
Qed.

Lemma default_error_hook_swallows_witness :
  on_message_handle_error
    (handler_delegate (Scenario.handler (Scenario.failing Scenario.boom)))
  = (fun _ _ => pass)
  /\ isinstance_Exception Scenario.boom = true
  /\ fst (run_task (delivery_task (Scenario.handler (Scenario.failing Scenario.boom))
                      Outage.stale_message) Scenario.online)
     = Ok PyNone.
Proof.
  split; [reflexivity|]. split; [reflexivity|].
  rewrite (default_error_hook_swallows _
             (Scenario.handler (Scenario.failing Scenario.boom))
             Outage.stale_message Scenario.online Scenario.boom
             (expose (self Scenario.online)) (world Scenario.online)
             eq_refl eq_refl eq_refl).
  reflexivity.
Defined.

(** ** Publishing *)

Lemma put_coro_without_data {W : Type} (io : Collaborators W) args (s : state W) :
  truthy (put_data args) = false ->
  put_coro io args s = put_coro io (without_data args) s.
Proof.
  intros Hd. unfold put_coro, without_data. simpl. rewrite Hd. reflexivity.
Qed.

(** X4.  [put] tests [data] for truth, not for presence: a falsy [data]
    (an empty dictionary or list, zero, [False], an empty string) is not
    serialized, and the call behaves as if [data] had not been given.  With
    [serialized_data] left to its default, the empty string, what is
    published is an empty payload, which [deserialize] refuses. *)
Theorem put_ignores_falsy_data :
  forall (W : Type) (io : Collaborators W) (args : put_args) (s : state W),
    truthy (put_data args) = false ->
    put_coro io args s = put_coro io (without_data args) s
    /\ (forall fuel, put io fuel args s = put io fuel (without_data args) s)
    /\ (forall ch,
          put_serialized_data args = PyStr "" ->
          channel (connection (self s)) = Some ch ->
          trace (snd (put_coro io args s))
          = trace s ++ [EvPublish ch [] (put_exchange args) (put_routing_key args)]
          /\ exists e,
               exn_class e = JSONDecodeError
               /\ deserialize (PyBytes []) = Raise e).
Proof.
  intros W io args s Hd. split; [|split].
  - apply put_coro_without_data. exact Hd.
  - intros fuel. unfold put, _ensure_connected.
    destruct (wrapper_loop io fuel 0 s) as [[[[u|e] n] sg]|]; try reflexivity.
    rewrite (put_coro_without_data io args sg Hd). reflexivity.
  - intros ch Hsd Hch. unfold put_coro. rewrite Hd, Hsd. simpl.
    unfold bindc, ret, current_channel. simpl. rewrite Hch.
    destruct (perform _ _ s) as [r s'] eqn:Hp.
    apply perform_inv in Hp. destruct Hp as (Ht & _).
    split; [exact Ht|]. eexists. split; [|reflexivity]. reflexivity.
Qed.

Lemma put_ignores_falsy_data_witness :
  truthy (put_data Outage.empty_dict_only) = false
  /\ trace (snd (put_coro Scenario.io Outage.empty_dict_only Scenario.online))
     = [EvPublish 7%nat [] "" "orders"].
Proof.
  split; [reflexivity|].
  exact (proj1 (proj2 (proj2 (put_ignores_falsy_data _ Scenario.io
                                Outage.empty_dict_only Scenario.online eq_refl))
                  7%nat eq_refl eq_refl)).
Defined.

(** X7.  The body of [put] publishes at most once: either it raises and
    leaves the program as it found it, nothing published, or it has made
    exactly one call, a [publish] on the current channel of the connection
    with the exchange and the routing key of the call. *)
Theorem put_publishes_at_most_once :
  forall (W : Type) (io : Collaborators W) (args : put_args) (s : state W)
         (r : result pyval) (s' : state W),
    put_coro io args s = (r, s') ->
    (s' = s /\ exists e, r = Raise e)
    \/ (exists ch payload,
          channel (connection (self s)) = Some ch
          /\ trace s' = trace s ++ [EvPublish ch payload (put_exchange args)
                                      (put_routing_key args)]
          /\ handlers s' = handlers s).
Proof.
  intros W io args s r s' H. unfold put_coro in H.
  destruct (truthy (put_data args) && truthy (put_serialized_data args)).
  { inversion H; subst. left. eauto. }
  unfold bindc in H.
  assert (Hbody : forall payload,
             match current_channel s with
             | (Ok ch, s0) =>
                 perform (fun _ => EvPublish ch payload (put_exchange args)
                                     (put_routing_key args))
                   (publish io ch payload (put_exchange args)
                      (put_routing_key args)) s0
             | (Raise e, s0) => (Raise e, s0)
             end = (r, s') ->
             (s' = s /\ exists e, r = Raise e)
             \/ (exists ch payload0,
                   channel (connection (self s)) = Some ch
                   /\ trace s' = trace s ++ [EvPublish ch payload0 (put_exchange args)
                                               (put_routing_key args)]
                   /\ handlers s' = handlers s)).
  { intros payload Hb. unfold current_channel in Hb.
    destruct (channel (connection (self s))) as [ch|].
    - right. exists ch, payload. split; [reflexivity|].
      apply perform_inv in Hb. tauto.
    - inversion Hb; subst. left. eauto. }
  assert (Hcoerce : forall sd,
             match coerce_to_bytes sd s with
             | (Ok payload, s0) =>
                 match current_channel s0 with
                 | (Ok ch, s1) =>
                     perform (fun _ => EvPublish ch payload (put_exchange args)
                                         (put_routing_key args))
                       (publish io ch payload (put_exchange args)
                          (put_routing_key args)) s1
                 | (Raise e, s1) => (Raise e, s1)
                 end
             | (Raise e, s0) => (Raise e, s0)
             end = (r, s') ->
             (s' = s /\ exists e, r = Raise e)
             \/ (exists ch payload0,
                   channel (connection (self s)) = Some ch
                   /\ trace s' = trace s ++ [EvPublish ch payload0 (put_exchange args)
                                               (put_routing_key args)]
                   /\ handlers s' = handlers s)).
  { intros sd Hc. unfold coerce_to_bytes in Hc.
    destruct sd; unfold ret, raise in Hc;
      try (inversion Hc; subst; left; eauto; fail);
      eapply Hbody; exact Hc. }
  destruct (truthy (put_data args)).
  - destruct (serialize (put_data args) false) as [text|e]; unfold ret, raise in H.
    + apply (Hcoerce (PyStr text)). exact H.
    + inversion H; subst. left. eauto.
  - unfold ret in H. apply (Hcoerce (put_serialized_data args)). exact H.
Qed.

Lemma put_publishes_at_most_once_witness :
  exists ch payload,
    channel (connection (self Scenario.online)) = Some ch
    /\ trace (snd (put_coro Scenario.io (Scenario.payload_only [Byte.x61])
                     Scenario.online))
       = trace Scenario.online ++ [EvPublish ch payload "" "orders"].
Proof.
  destruct (put_publishes_at_most_once _ Scenario.io
              (Scenario.payload_only [Byte.x61]) Scenario.online _ _ eq_refl)
    as [(_ & e & He) | (ch & payload & Hch & Ht & _)].
  - discriminate He.
  - exists ch, payload. split; [exact Hch | exact Ht].
Defined.

(** X6.  [put] with a [data] the JSON encoder refuses (bytes, a set-like
    object, a dictionary keyed by tuples) raises the [TypeError] of the
    encoder and publishes nothing. *)
Theorem put_unserializable_data :
  forall (W : Type) (io : Collaborators W) (args : put_args) (s : state W),
    truthy (put_data args) = true ->
    truthy (put_serialized_data args) = false ->
    Json.encode false (put_data args) = None ->
    exists e,
      exn_class e = TypeError /\ put_coro io args s = (Raise e, s).
Proof.
  intros W io args s Hd Hs Henc. unfold put_coro, serialize, Json.dumps.
  rewrite Hd, Hs, Henc. simpl. eexists. split; [|reflexivity]. reflexivity.
Qed.

Lemma put_unserializable_data_witness :
  truthy (PyDict [(PyTuple [PyInt 1; PyInt 2], PyStr "a")]) = true
  /\ exists e,
       exn_class e = TypeError
       /\ put_coro Scenario.io
            (Outage.data_only (PyDict [(PyTuple [PyInt 1; PyInt 2], PyStr "a")]))
            Scenario.online
          = (Raise e, Scenario.online).
Proof.
  split; [reflexivity|].
  exact (put_unserializable_data _ Scenario.io
           (Outage.data_only (PyDict [(PyTuple [PyInt 1; PyInt 2], PyStr "a")]))
           Scenario.online eq_refl eq_refl eq_refl).
Defined.



(** X8.  A text given as [serialized_data] is published as its UTF-8
    encoding: the payload of the one [publish] decodes to that text, and
    giving the encoded bytes instead makes no difference. *)
Theorem put_encodes_text :
  forall (W : Type) (io : Collaborators W) (args : put_args) (s : state W)
         (text : string) (ch : Channel),
    truthy (put_data args) = false ->
    put_serialized_data args = PyStr text ->
    channel (connection (self s)) = Some ch ->
    exists payload,
      trace (snd (put_coro io args s))
      = trace s ++ [EvPublish ch payload (put_exchange args) (put_routing_key args)]
      /\ Utf8.decode payload = Some text
      /\ put_coro io args s
         = put_coro io
             {| put_routing_key := put_routing_key args;
                put_data := put_data args;
                put_serialized_data := PyBytes payload;
                put_exchange := put_exchange args |} s.
Proof.
  intros W io args s text ch Hd Hsd Hch.
  exists (Utf8.encode text). split; [|split].
  - unfold put_coro. rewrite Hd, Hsd. simpl.
    unfold bindc, ret, current_channel. simpl. rewrite Hch.
    destruct (perform _ _ s) as [r s'] eqn:Hp.
    apply perform_inv in Hp. destruct Hp as (Hp & _). exact Hp.
  - apply utf8_decode_encode.
  - unfold put_coro. simpl. rewrite Hd, Hsd. reflexivity.
Qed.

Lemma put_encodes_text_witness :
  exists payload,
    trace (snd (put_coro Scenario.io
                  (Outage.text_only (String "233" "t")) Scenario.online))
    = trace Scenario.online ++ [EvPublish 7%nat payload "" "orders"]
    /\ payload = [Byte.xc3; Byte.xa9; Byte.x74]
    /\ Utf8.decode payload = Some (String "233" "t").
Proof.
  destruct (put_encodes_text _ Scenario.io (Outage.text_only (String "233" "t"))
              Scenario.online (String "233" "t") 7%nat eq_refl eq_refl eq_refl)
    as (payload & Ht & Hdec & _).
  exists payload. split; [exact Ht|]. split; [|exact Hdec].
  simpl in Ht. inversion Ht. reflexivity.
Defined.

(** ** Acknowledging *)

Lemma guarded_events {W : Type} (io : Collaborators W) {A R : Type}
  (coro : A -> coroutine W R) fuel args (s : state W) r s' :
  _ensure_connected io coro fuel args s = Some (r, s') ->
  exists g sg,
    trace sg = trace s ++ g
    /\ forallb is_guard_event g = true
    /\ handlers sg = handlers s
    /\ same_settings (self s) (self sg)
    /\ ((r, s') = coro args sg
        \/ (s' = sg /\ exists e, r = Raise e /\ guard_raised g e)).
Proof.
  intros H. unfold _ensure_connected in H.
  destruct (wrapper_loop io fuel 0 s) as [[[res n] sg]|] eqn:Hloop; [|discriminate].
  destruct (wrapper_loop_tail io _ _ _ _ _ _ Hloop)
    as (es & tail & _ & _ & Hh & Hq & _).
  destruct res as [[]|e].
  - destruct (wrapper_loop_events io _ _ _ _ _ _ Hloop) as (g & Ht & Hg).
    exists g, sg. repeat split; try assumption; try apply Hq. left. congruence.
  - destruct (wrapper_loop_raised io _ _ _ _ _ _ Hloop) as (g & Ht & Hg & Hraised).
    exists g, sg. repeat split; try assumption; try apply Hq.
    right. inversion H; subst. split; [reflexivity|]. exists e. auto.
Qed.

(** X3.  [ack] and [reject] go to the channel the message was delivered on,
    with the delivery tag of the message, and not to the current channel of
    the connection: whatever channel the guard may have opened, the only
    call after those of the guard is the acknowledgement on
    [msg.channel], unless the guard itself raised. *)
Theorem ack_and_reject_use_the_channel_of_the_message :
  forall (W : Type) (io : Collaborators W) (fuel : nat) (msg : AMQPMessage)
         (requeue : bool) (s : state W),
    (forall r s',
        ack io fuel msg s = Some (r, s') ->
        exists g,
          forallb is_guard_event g = true
          /\ (trace s' = trace s ++ g
                         ++ [EvBasicClientAck (msg_channel msg) (msg_delivery_tag msg)]
              \/ (trace s' = trace s ++ g
                  /\ exists e, r = Raise e /\ guard_raised g e)))
    /\ (forall r s',
          reject io fuel (msg, requeue) s = Some (r, s') ->
          exists g,
            forallb is_guard_event g = true
            /\ (trace s' = trace s ++ g
                           ++ [EvBasicReject (msg_channel msg) (msg_delivery_tag msg)
                                 requeue]
                \/ (trace s' = trace s ++ g
                    /\ exists e, r = Raise e /\ guard_raised g e))).
Proof.
  intros W io fuel msg requeue s. split; intros r s' H;
    destruct (guarded_events io _ _ _ _ _ _ H)
      as (g & sg & Ht & Hg & _ & _ & Hout);
    exists g; (split; [exact Hg|]);
    destruct Hout as [Hbody | (-> & Hraise)];
    try (right; split; [exact Ht | exact Hraise]);
    left; symmetry in Hbody; apply perform_inv in Hbody;
    destruct Hbody as (Hb & _); rewrite Hb, Ht, List.app_assoc; reflexivity.
Qed.

Lemma ack_and_reject_use_the_channel_of_the_message_witness :
  channel (connection (self Scenario.online)) = Some 7%nat
  /\ msg_channel Outage.stale_message = 3%nat
  /\ exists g,
       forallb is_guard_event g = true
       /\ trace (snd (ack_coro Scenario.io Outage.stale_message Scenario.online))
          = trace Scenario.online ++ g ++ [EvBasicClientAck 3%nat 42].
Proof.
  split; [reflexivity|]. split; [reflexivity|].
  destruct (proj1 (ack_and_reject_use_the_channel_of_the_message _ Scenario.io
                     0%nat Outage.stale_message false Scenario.online)
              _ _ eq_refl) as (g & Hg & [Ht | (_ & e & He & _)]).
  - exists g. split; [exact Hg | exact Ht].
  - discriminate He.
Defined.

(** ** Consuming *)

Lemma bindc_inv {W A B : Type} (m : coroutine W A) (k : A -> coroutine W B)
  (s : state W) r s' :
  bindc m k s = (r, s') ->
  (exists a s1, m s = (Ok a, s1) /\ k a s1 = (r, s'))
  \/ (exists e, m s = (Raise e, s') /\ r = Raise e).
Proof.
  unfold bindc. destruct (m s) as [[a|e] s1]; intros H.
  - left. eauto.
  - right. inversion H; subst. eauto.
Qed.

Lemma update_nth_last {A : Type} (f : A -> A) (l : list A) (a : A) :
  update_nth (List.length l) f (l ++ [a]) = l ++ [f a].
Proof. induction l as [|b l IH]; simpl; [|rewrite IH]; reflexivity. Qed.

Lemma current_channel_inv {W : Type} (s : state W) r s' :
  current_channel s = (r, s') -> s' = s.
Proof.
  unfold current_channel. destruct (channel (connection (self s)));
    intros H; inversion H; reflexivity.
Qed.

(** Every run of the body of [consume]: the handler it leaves and the
    calls it has made, by the point it stopped at. *)
Lemma consume_coro_inv {W : Type} (io : Collaborators W)
  (args : consume_args W) (s : state W) r s' :
  consume_coro io args s = (r, s') ->
  exists ch ch' tag k,
    trace s' = trace s
               ++ EvOnBeforeStartConsumption (consume_queue_name args)
                  :: firstn k (consume_calls args s ch ch' tag)
    /\ handlers s'
       = handlers s
         ++ [consume_handler args
               match r with Ok t => Some t | Raise _ => None end]
    /\ match r with
       | Ok t => t = tag /\ k = 3%nat
       | Raise _ => True
       end.
Proof.
  unfold consume_coro. intros H.
  assert (Hstop : forall k ch ch' tag e (sx : state W),
             trace sx = trace s
                        ++ EvOnBeforeStartConsumption (consume_queue_name args)
                           :: firstn k (consume_calls args s ch ch' tag) ->
             handlers sx = handlers s ++ [consume_handler args None] ->
             r = Raise e -> s' = sx ->
             exists ch ch' tag k,
               trace s' = trace s
                          ++ EvOnBeforeStartConsumption (consume_queue_name args)
                             :: firstn k (consume_calls args s ch ch' tag)
               /\ handlers s'
                  = handlers s
                    ++ [consume_handler args
                          match r with Ok t => Some t | Raise _ => None end]
               /\ match r with
                  | Ok t => t = tag /\ k = 3%nat
                  | Raise _ => True
                  end).
  { intros k ch ch' tag e sx Ht Hh -> ->. exists ch, ch', tag, k. auto. }
  apply bindc_inv in H. destruct H as [(hid & s0' & Hnew & H) | (e & Hnew & _)];
    [|discriminate Hnew].
  unfold new_handler in Hnew. inversion Hnew; subst hid s0'. clear Hnew.
  (* the hook *)
  apply bindc_inv in H. destruct H as [(v1 & s1 & Hhook & H) | (e & Hhook & Hr)];
    apply perform_inv in Hhook; destruct Hhook as (Ht1 & Hh1 & Hq1);
    simpl in Ht1, Hh1, Hq1.
  2: { apply (Hstop 0%nat 0%nat 0%nat ""%string e s'); auto; unfold consume_handler; try congruence;
       simpl; rewrite ?Ht4, ?Ht3, ?Ht2, ?Ht1, <- ?List.app_assoc; reflexivity. }
  (* the channel, for basic_qos *)
  apply bindc_inv in H. destruct H as [(ch & s1' & Hch & H) | (e & Hch & Hr)];
    pose proof (current_channel_inv _ _ _ Hch) as Hs1; [subst s1'|].
  2: { apply (Hstop 0%nat 0%nat 0%nat ""%string e s1); auto; unfold consume_handler; try congruence;
       simpl; rewrite ?Ht4, ?Ht3, ?Ht2, ?Ht1, <- ?List.app_assoc; reflexivity. }
  apply bindc_inv in H. destruct H as [(prefetch & s1' & Hpf & H) | (e & Hpf & _)];
    [|discriminate Hpf].
  unfold gets in Hpf. inversion Hpf; subst prefetch s1'. clear Hpf.
  assert (Hprefetch : prefetch_count (self s1) = prefetch_count (self s))
    by apply Hq1.
  rewrite Hprefetch in H.
  apply bindc_inv in H. destruct H as [(v2 & s2 & Hqos & H) | (e & Hqos & Hr)];
    apply perform_inv in Hqos; destruct Hqos as (Ht2 & Hh2 & Hq2).
  2: { apply (Hstop 1%nat ch 0%nat ""%string e s'); auto; unfold consume_handler; try congruence;
       simpl; rewrite ?Ht4, ?Ht3, ?Ht2, ?Ht1, <- ?List.app_assoc; reflexivity. }
  (* the channel, for basic_consume *)
  apply bindc_inv in H. destruct H as [(ch' & s2' & Hch' & H) | (e & Hch' & Hr)];
    pose proof (current_channel_inv _ _ _ Hch') as Hs2; [subst s2'|].
  2: { apply (Hstop 1%nat ch 0%nat ""%string e s2); auto; unfold consume_handler; try congruence;
       simpl; rewrite ?Ht4, ?Ht3, ?Ht2, ?Ht1, <- ?List.app_assoc; reflexivity. }
  apply bindc_inv in H. destruct H as [(reply & s3 & Hcons & H) | (e & Hcons & Hr)];
    apply perform_inv in Hcons; destruct Hcons as (Ht3 & Hh3 & Hq3).
  2: { apply (Hstop 2%nat ch ch' ""%string e s'); auto; unfold consume_handler; try congruence;
       simpl; rewrite ?Ht4, ?Ht3, ?Ht2, ?Ht1, <- ?List.app_assoc; reflexivity. }
  assert (Hthree : trace s3 = trace s
                     ++ EvOnBeforeStartConsumption (consume_queue_name args)
                        :: firstn 2 (consume_calls args s ch ch' ""%string)).
  { simpl. rewrite Ht3, Ht2, Ht1, <- !List.app_assoc. reflexivity. }
  (* the consumer tag of the reply *)
  apply bindc_inv in H. destruct H as [(tag & s3' & Htag & H) | (e & Htag & Hr)];
    unfold getitem in Htag;
    destruct (lookup "consumer_tag" reply) as [t|]; unfold ret, raise in Htag;
    try discriminate Htag.
  2: { assert (Hs : s' = s3) by congruence.
       apply (Hstop 2%nat ch ch' ""%string e s3); auto;
         unfold consume_handler; congruence. }
  assert (Hs3 : s3' = s3) by congruence. subst s3'.
  apply bindc_inv in H. destruct H as [(v4 & s4 & Hstart & H) | (e & Hstart & Hr)];
    apply perform_inv in Hstart; destruct Hstart as (Ht4 & Hh4 & Hq4).
  2: { apply (Hstop 3%nat ch ch' tag e s'); auto; unfold consume_handler; try congruence;
       simpl; rewrite ?Ht4, ?Ht3, ?Ht2, ?Ht1, <- ?List.app_assoc; reflexivity. }
  apply bindc_inv in H. destruct H as [(u & s5 & Hset & H) | (e & Hset & _)];
    [|discriminate Hset].
  unfold set_consumer_tag in Hset. inversion Hset; subst u s5. clear Hset.
  unfold ret in H. inversion H; subst r s'. clear H.
  exists ch, ch', tag, 3%nat. simpl. split; [|split; [|auto]].
  - rewrite Ht4, Ht3, Ht2, Ht1, <- !List.app_assoc. reflexivity.
  - simpl. rewrite Hh4, Hh3, Hh2, Hh1, update_nth_last. reflexivity.
Qed.





(** ** Stopping a consumer *)

(** X17.  With a channel at hand, [stop_consumer] makes one call, the
    [basic_cancel] of the tag on the current channel of the connection,
    whether or not the client is running or connected; it does not touch
    the handlers: after [consume] and [stop_consumer] of the tag it
    returned, the handler still carries that tag. *)
Theorem stop_consumer_cancels_on_the_current_channel :
  forall (W : Type) (io : Collaborators W) (consumer_tag : string)
         (s : state W) (ch : Channel),
    channel (connection (self s)) = Some ch ->
    trace (snd (stop_consumer io consumer_tag s))
    = trace s ++ [EvBasicCancel ch consumer_tag]
    /\ handlers (snd (stop_consumer io consumer_tag s)) = handlers s
    /\ forall (args : consume_args W) (s0 : state W),
         consume_coro io args s0 = (Ok consumer_tag, s) ->
         handlers (snd (stop_consumer io consumer_tag s))
         = handlers s0 ++ [consume_handler args (Some consumer_tag)].
Proof.
  intros W io consumer_tag s ch Hch. unfold stop_consumer. rewrite Hch.
  destruct (perform _ _ s) as [r s'] eqn:Hp.
  apply perform_inv in Hp. destruct Hp as (Ht & Hh & _). simpl.
  split; [exact Ht|]. split; [exact Hh|].
  intros args s0 Hconsume.
  destruct (consume_coro_inv io args s0 _ _ Hconsume)
    as (c & c' & tag & k & _ & Hhandlers & _).
  rewrite Hh. exact Hhandlers.
Qed.

Lemma stop_consumer_cancels_on_the_current_channel_witness :
  is_running (self (Scenario.start
                      (Scenario.queue false Scenario.connected None)
                      (world Scenario.online))) = false
  /\ trace (snd (stop_consumer Scenario.io "ctag1"
                   (Scenario.start
                      (Scenario.queue false Scenario.connected None)
                      (world Scenario.online))))
     = [EvBasicCancel 7%nat "ctag1"].
Proof.
  split; [reflexivity|].
  exact (proj1 (stop_consumer_cancels_on_the_current_channel _ Scenario.io
                  "ctag1"%string
                  (Scenario.start (Scenario.queue false Scenario.connected None)
                     (world Scenario.online))
                  7%nat eq_refl)).
Defined.
